(** * Kinesiology sports center backend: appointment conflict detector
      and patient creation

    Shallow embedding of
    - [src/backend/src/models/Appointment.js] (static [checkConflict]),
    - [src/backend/src/services/patientService.js] ([createPatient]) together
      with the Patient schema it is run against,
    - the other methods of the service that work on one collection
      ([getPatientById], [updatePatient], [deletePatient],
      [getAllPatients]) and the [age] virtual of the Patient and
      Professional schemas.  [searchPatients] is left out: it rests on
      regular expressions and on the calendar of the runtime.

    Conventions of the embedding.
    - A JavaScript [Date] is its time value: milliseconds since the epoch,
      in [Z].
    - Strings are [string]; the relational operators of JavaScript on two
      strings compare code units lexicographically, which is
      [String.compare] (for the ASCII texts handled here, code units are
      bytes).
    - A MongoDB collection is the list of its documents in natural order.
    - A document identifier (ObjectId, 96 bits) is a number in [N]; an
      optional argument that defaults to [null] is an [option].
    - Document fields and filter values are the values the schema casts
      them to (for a String path with [trim: true], the trimmed text).
    - The datastore is reachable: [find], [findOne] and [create] fail
      only by the rules of the schema. *)

From Stdlib Require Import ZArith List Bool String Ascii Lia Permutation Sorted.
Import ListNotations.

Local Open Scope string_scope.
Local Open Scope Z_scope.

(** ** Relational operators on strings *)

Module StrOrd.

Definition lt (a b : string) : bool := String.ltb a b.
Definition le (a b : string) : bool := String.leb a b.
Definition gt (a b : string) : bool := String.ltb b a.
Definition ge (a b : string) : bool := String.leb b a.

End StrOrd.

Declare Scope js_scope.
Delimit Scope js_scope with js.
Infix "<" := StrOrd.lt : js_scope.
Infix "<=" := StrOrd.le : js_scope.
Infix ">" := StrOrd.gt : js_scope.
Infix ">=" := StrOrd.ge : js_scope.

(** ** Dates: the day window of [checkConflict] *)

Module JsDate.

Definition msPerSecond : Z := 1000.
Definition msPerMinute : Z := 60000.
Definition msPerHour : Z := 3600000.
Definition msPerDay : Z := 86400000.

Definition MakeTime (h m s ms : Z) : Z :=
  h * msPerHour + m * msPerMinute + s * msPerSecond + ms.

Definition Day (t : Z) : Z := t / msPerDay.

Definition MakeDate (day time : Z) : Z := day * msPerDay + time.

Section LocalTime.

(** Offset of local time from UTC, in milliseconds (local = UTC + offset);
    the zone keeps one offset over the days considered. *)
Variable tza : Z.

Definition LocalTime (t : Z) : Z := t + tza.
Definition UTC (t : Z) : Z := t - tza.

(** [d.setHours(h, m, s, ms)]: same local calendar day, given local
    time of day. *)
Definition setHours (d h m s ms : Z) : Z :=
  UTC (MakeDate (Day (LocalTime d)) (MakeTime h m s ms)).

End LocalTime.

End JsDate.

(** ** Appointment documents *)

Definition ObjectId := N.

Record Appointment : Type := mkAppointment {
  _id : ObjectId;
  patient : ObjectId;
  date : Z;
  startTime : string;
  endTime : string;
  type : string;
  status : string;
  practitioner : string;
  room : option string
}.

(** ** Queries built by [checkConflict] *)

(** The filter object: [practitioner] by equality, [date] by
    [$gte]/[$lte], [status] by [$nin], and [_id] by [$ne] when the
    property has been set. *)
Record Query : Type := mkQuery {
  q_practitioner : string;
  q_date_gte : Z;
  q_date_lte : Z;
  q_status_nin : list string;
  q_id_ne : option ObjectId
}.

Definition nin (x : string) (l : list string) : bool :=
  negb (existsb (String.eqb x) l).

Definition ne_opt (i : ObjectId) (o : option ObjectId) : bool :=
  match o with
  | None => true
  | Some e => negb (N.eqb i e)
  end.

Definition matches (q : Query) (a : Appointment) : bool :=
  String.eqb (practitioner a) (q_practitioner q)
  && (q_date_gte q <=? date a) && (date a <=? q_date_lte q)
  && nin (status a) (q_status_nin q)
  && ne_opt (_id a) (q_id_ne q).

(** [Model.find(query)]: the matching documents, in collection order. *)
Definition find (q : Query) (db : list Appointment) : list Appointment :=
  filter (matches q) db.

(** ** [AppointmentSchema.statics.checkConflict] *)

(** The test in the body of the loop. *)
Definition overlapTest (newStart newEnd existingStart existingEnd : string) : bool :=
  ((newStart >= existingStart)%js && (newStart < existingEnd)%js)
  || ((newEnd > existingStart)%js && (newEnd <= existingEnd)%js)
  || ((newStart <= existingStart)%js && (newEnd >= existingEnd)%js).

(** The [for ... of] loop with its early [return true]. *)
Fixpoint scan (newStart newEnd : string) (appointments : list Appointment) : bool :=
  match appointments with
  | [] => false
  | app :: rest =>
      let existingStart := startTime app in
      let existingEnd := endTime app in
      if overlapTest newStart newEnd existingStart existingEnd
      then true
      else scan newStart newEnd rest
  end.

Section Detector.

Variable tza : Z.

Definition startOfDay (d : Z) : Z := JsDate.setHours tza d 0 0 0 0.
Definition endOfDay (d : Z) : Z := JsDate.setHours tza d 23 59 59 999.

(** The filter object.  [if (excludeId)] tests truthiness: [null] is
    falsy, an identifier is truthy. *)
Definition buildQuery (practitioner : string) (date : Z)
    (excludeId : option ObjectId) : Query :=
  let query :=
    {| q_practitioner := practitioner;
       q_date_gte := startOfDay date;
       q_date_lte := endOfDay date;
       q_status_nin := ["Cancelled"; "No-Show"]%string;
       q_id_ne := None |} in
  match excludeId with
  | Some e =>
      {| q_practitioner := q_practitioner query;
         q_date_gte := q_date_gte query;
         q_date_lte := q_date_lte query;
         q_status_nin := q_status_nin query;
         q_id_ne := Some e |}
  | None => query
  end.

(** The candidate set: what [this.find(query)] returns. *)
Definition candidates (db : list Appointment) (practitioner : string)
    (date : Z) (excludeId : option ObjectId) : list Appointment :=
  find (buildQuery practitioner date excludeId) db.

Definition checkConflict (db : list Appointment) (practitioner : string)
    (date : Z) (startTime endTime : string)
    (excludeId : option ObjectId) : bool :=
  let appointments := candidates db practitioner date excludeId in
  let newStart := startTime in
  let newEnd := endTime in
  scan newStart newEnd appointments.

End Detector.

(** ** Errors, results and the store-passing monad of the services *)

(** An [Error] object with the ad hoc [statusCode] property the services
    attach; [None] is a missing property. *)
Record JsError : Type := mkError {
  name : string;
  message : string;
  statusCode : option Z
}.

Definition newError (msg : string) : JsError :=
  {| name := "Error"; message := msg; statusCode := None |}.

Definition setStatusCode (e : JsError) (c : Z) : JsError :=
  {| name := name e; message := message e; statusCode := Some c |}.

(** Truthiness of [error.statusCode]: a missing property and the number 0
    are falsy. *)
Definition truthyStatus (e : JsError) : bool :=
  match statusCode e with
  | None => false
  | Some c => negb (c =? 0)
  end.

Inductive Result (A : Type) : Type :=
| Ok (a : A)
| Throw (e : JsError).
Arguments Ok {A} a.
Arguments Throw {A} e.

Module StoreM.

Section WithStore.

Variable S : Type.

(** A computation over the collection: it returns or throws, and
    leaves a collection behind either way. *)
Definition M (A : Type) : Type := S -> Result A * S.

Definition ret {A} (a : A) : M A := fun s => (Ok a, s).

Definition throw {A} (e : JsError) : M A := fun s => (Throw e, s).

Definition bind {A B} (m : M A) (k : A -> M B) : M B :=
  fun s =>
    match m s with
    | (Ok a, s') => k a s'
    | (Throw e, s') => (Throw e, s')
    end.

Definition tryCatch {A} (body : M A) (handler : JsError -> M A) : M A :=
  fun s =>
    match body s with
    | (Ok a, s') => (Ok a, s')
    | (Throw e, s') => handler e s'
    end.

End WithStore.

Arguments ret {S A} a.
Arguments throw {S A} e.
Arguments bind {S A B} m k.
Arguments tryCatch {S A} body handler.

End StoreM.

Notation "x <- m ;; k" := (StoreM.bind m (fun x => k))
  (at level 61, m at next level, right associativity).

(** ** Patient documents and the Patient model *)

(** The object handed to [createPatient]: every property may be absent.
    The nested [address] and [emergencyContact] objects and the arrays
    ([allergies], [medicalConditions], [medications]) carry no validator
    and are left out. *)
Record PatientData : Type := mkPatientData {
  d_firstName : option string;
  d_lastName : option string;
  d_idNumber : option string;
  d_dateOfBirth : option Z;
  d_gender : option string;
  d_email : option string;
  d_phone : option string;
  d_bloodType : option string;
  d_occupation : option string;
  d_referredBy : option string;
  d_notes : option string;
  d_isActive : option bool
}.

Record Patient : Type := mkPatient {
  p_id : ObjectId;
  firstName : string;
  lastName : string;
  idNumber : string;
  dateOfBirth : Z;
  gender : string;
  email : option string;
  phone : string;
  bloodType : string;
  occupation : option string;
  referredBy : option string;
  notes : option string;
  isActive : bool;
  createdAt : Z;
  updatedAt : Z
}.

Definition genderEnum : list string := ["Male"; "Female"; "Other"]%string.

Definition bloodTypeEnum : list string :=
  ["A+"; "A-"; "B+"; "B-"; "AB+"; "AB-"; "O+"; "O-"; "Unknown"]%string.

Definition inEnum (x : string) (l : list string) : bool :=
  existsb (String.eqb x) l.

(** [required] on a String path: present and not empty. *)
Definition requiredString (path msg : string) (v : option string)
  : list (string * string) :=
  match v with
  | Some s => if String.eqb s "" then [(path, msg)] else []
  | None => [(path, msg)]
  end.

Definition requiredDate (path msg : string) (v : option Z)
  : list (string * string) :=
  match v with
  | Some _ => []
  | None => [(path, msg)]
  end.

Definition enumMessage (path v : string) : string :=
  "`" ++ v ++ "` is not a valid enum value for path `" ++ path ++ "`.".

(** [enum] on a String path: [undefined] passes, any other text has to
    be one of the values. *)
Definition enumCheck (path : string) (l : list string) (v : option string)
  : list (string * string) :=
  match v with
  | Some s => if inEnum s l then [] else [(path, enumMessage path s)]
  | None => []
  end.

(** The validators of one path run in order and the first failure is
    the error of the path. *)
Definition firstFailure (first rest : list (string * string))
  : list (string * string) :=
  match first with
  | [] => rest
  | _ :: _ => first
  end.

Definition renderErrors (errs : list (string * string)) : string :=
  String.concat ", " (map (fun pm => fst pm ++ ": " ++ snd pm) errs).

Definition validationError (errs : list (string * string)) : JsError :=
  {| name := "ValidationError";
     message := "Patient validation failed: " ++ renderErrors errs;
     statusCode := None |}.

Definition duplicateKeyError : JsError :=
  {| name := "MongoServerError";
     message := "E11000 duplicate key error";
     statusCode := None |}.

Definition orElse {A} (o : option A) (dflt : A) : A :=
  match o with
  | Some a => a
  | None => dflt
  end.

Section PatientService.

(** The [match] validator of the [email] path: whether the regular
    expression of the schema accepts the text ([undefined] and the
    empty text are not tested). *)
Variable emailMatch : string -> bool.

(** The identifier and the clock reading the driver gives the next
    inserted document. *)
Variable newId : ObjectId.
Variable now : Z.

Definition matchCheck (v : option string) : list (string * string) :=
  match v with
  | Some s =>
      if String.eqb s "" then []
      else if emailMatch s then [] else [("email", "Please add a valid email")]
  | None => []
  end.

(** The validators of [PatientSchema].  The error lists the failing
    paths as Mongoose visits them: the required paths from the last of
    the schema to the first, then the other paths the data sets. *)
Definition validate (pd : PatientData) : list (string * string) :=
  requiredString "phone" "Phone number is required" (d_phone pd)
  ++ firstFailure (requiredString "gender" "Gender is required" (d_gender pd))
       (enumCheck "gender" genderEnum (d_gender pd))
  ++ requiredDate "dateOfBirth" "Date of birth is required" (d_dateOfBirth pd)
  ++ requiredString "idNumber" "ID number is required" (d_idNumber pd)
  ++ requiredString "lastName" "Last name is required" (d_lastName pd)
  ++ requiredString "firstName" "First name is required" (d_firstName pd)
  ++ matchCheck (d_email pd)
  ++ enumCheck "bloodType" bloodTypeEnum (d_bloodType pd).

(** The document built from the data, with the defaults of the schema
    ([bloodType] ['Unknown'], [isActive] [true]) and the timestamps. *)
Definition document (pd : PatientData) : Patient :=
  {| p_id := newId;
     firstName := orElse (d_firstName pd) "";
     lastName := orElse (d_lastName pd) "";
     idNumber := orElse (d_idNumber pd) "";
     dateOfBirth := orElse (d_dateOfBirth pd) 0;
     gender := orElse (d_gender pd) "";
     email := d_email pd;
     phone := orElse (d_phone pd) "";
     bloodType := orElse (d_bloodType pd) "Unknown";
     occupation := d_occupation pd;
     referredBy := d_referredBy pd;
     notes := d_notes pd;
     isActive := orElse (d_isActive pd) true;
     createdAt := now;
     updatedAt := now |}.

Definition hasIdNumber (v : string) (p : Patient) : bool :=
  String.eqb (idNumber p) v.

(** [Patient.findOne({ idNumber })]: the first document whose
    [idNumber] equals the given one; [null] when there is none, and
    also when the value is [undefined] (every document has the
    path). *)
Definition findOne (v : option string) : StoreM.M (list Patient) (option Patient) :=
  fun store =>
    match v with
    | Some s => (Ok (List.find (hasIdNumber s) store), store)
    | None => (Ok None, store)
    end.

(** [Patient.create(patientData)]: validate, then insert under the
    unique index on [idNumber]. *)
Definition create (pd : PatientData) : StoreM.M (list Patient) Patient :=
  fun store =>
    match validate pd with
    | [] =>
        let doc := document pd in
        if existsb (hasIdNumber (idNumber doc)) store
        then (Throw duplicateKeyError, store)
        else (Ok doc, (store ++ [doc])%list)
    | errs => (Throw (validationError errs), store)
    end.

(** The [catch] block: [if (!error.statusCode) error.statusCode = 500]. *)
Definition addStatusCode (error : JsError) : JsError :=
  if negb (truthyStatus error) then setStatusCode error 500 else error.

Definition isTruthy {A} (o : option A) : bool :=
  match o with
  | Some _ => true
  | None => false
  end.

(** [PatientService.createPatient]. *)
Definition createPatient (patientData : PatientData)
  : StoreM.M (list Patient) Patient :=
  StoreM.tryCatch
    (existingPatient <- findOne (d_idNumber patientData) ;;
     if isTruthy existingPatient
     then
       let error := newError "Patient with this ID number already exists" in
       let error := setStatusCode error 400 in
       StoreM.throw error
     else
       patient <- create patientData ;;
       StoreM.ret patient)
    (fun error => StoreM.throw (addStatusCode error)).

End PatientService.

(** ** Predicates of the specification *)

(** A well-formed half-open interval: start strictly before end. *)
Definition wellFormed (s e : string) : Prop := (s < e)%js = true.

(** Two half-open intervals [[s1, e1)] and [[s2, e2)] overlap when each
    starts before the other ends. *)
Definition overlaps (s1 e1 s2 e2 : string) : bool :=
  (s1 < e2)%js && (s2 < e1)%js.

Definition appOverlaps (a b : Appointment) : bool :=
  overlaps (startTime a) (endTime a) (startTime b) (endTime b).

(** The three disjuncts of the detector, as propositions. *)
Definition startInside (newStart existingStart existingEnd : string) : Prop :=
  (existingStart <= newStart)%js = true /\ (newStart < existingEnd)%js = true.

Definition endInside (newEnd existingStart existingEnd : string) : Prop :=
  (existingStart < newEnd)%js = true /\ (newEnd <= existingEnd)%js = true.

Definition covers (newStart newEnd existingStart existingEnd : string) : Prop :=
  (newStart <= existingStart)%js = true /\ (existingEnd <= newEnd)%js = true.

(** One interval strictly contains another: it contains it and differs
    from it at one end at least. *)
Definition strictlyContains (s1 e1 s2 e2 : string) : Prop :=
  (s1 <= s2)%js = true /\ (e2 <= e1)%js = true
  /\ ((s1 < s2)%js = true \/ (e2 < e1)%js = true).

(** Two well-formed intervals that meet at one end: the existing one
    ends where the proposed one starts, or the proposed one ends where
    the existing one starts. *)
Definition backToBack (newStart newEnd existingStart existingEnd : string) : Prop :=
  wellFormed newStart newEnd /\ wellFormed existingStart existingEnd
  /\ (existingEnd = newStart \/ newEnd = existingStart).

(** Pairwise non-overlap of the documents of a list, each pair of
    positions taken once. *)
Fixpoint pairwiseDisjoint (l : list Appointment) : Prop :=
  match l with
  | [] => True
  | a :: rest =>
      (forall b, In b rest -> appOverlaps a b = false) /\ pairwiseDisjoint rest
  end.

Definition isCancelled (a : Appointment) : Prop :=
  status a = "Cancelled" \/ status a = "No-Show".

(** Non-overlap of the documents of a list that satisfy [P], each pair
    of positions taken once. *)
Fixpoint pairwiseOn (P : Appointment -> Prop) (l : list Appointment) : Prop :=
  match l with
  | [] => True
  | a :: rest =>
      (P a -> forall b, In b rest -> P b -> appOverlaps a b = false)
      /\ pairwiseOn P rest
  end.

(** Two half-open intervals [[s1, e1)] and [[s2, e2)] share an
    instant. *)
Definition intervalsOverlap (s1 e1 s2 e2 : string) : Prop :=
  exists t, ((s1 <= t)%js = true /\ (t < e1)%js = true)
            /\ ((s2 <= t)%js = true /\ (t < e2)%js = true).

Section Invariant.

Variable tza : Z.

(** The date [t] lies in the inclusive day window of [d]: both are
    between a local midnight, 00:00:00.000, and 23:59:59.999 of that
    local day.  Times are in milliseconds and local time is UTC plus
    [tza]. *)
Definition inDayWindow (d t : Z) : Prop :=
  exists midnight,
    (midnight + tza) mod 86400000 = 0
    /\ midnight <= d <= midnight + 86399999
    /\ midnight <= t <= midnight + 86399999.

(** Membership in the candidate set, in the words of the
    specification: same practitioner, date in the day window, status
    neither Cancelled nor No-Show, and not the excluded document. *)
Definition isCandidate (p : string) (d : Z) (excludeId : option ObjectId)
    (a : Appointment) : Prop :=
  practitioner a = p
  /\ inDayWindow d (date a)
  /\ ~ isCancelled a
  /\ (forall e, excludeId = Some e -> _id a <> e).

(** The invariant of the detector for one practitioner and one day:
    the stored appointments of the practitioner and day that are
    neither Cancelled nor No-Show have well-formed, pairwise
    non-overlapping intervals. *)
Definition nonOverlapInvariant (db : list Appointment) (p : string) (d : Z) : Prop :=
  (forall a, In a db -> isCandidate p d None a ->
             wellFormed (startTime a) (endTime a))
  /\ pairwiseOn (isCandidate p d None) db.

(** [x] is the one stored appointment of the practitioner and day,
    neither Cancelled nor No-Show, whose interval overlaps the proposed
    one. *)
Definition onlyOverlapping (db : list Appointment) (p : string) (d : Z)
    (newStart newEnd : string) (x : Appointment) : Prop :=
  In x db
  /\ isCandidate p d None x
  /\ intervalsOverlap newStart newEnd (startTime x) (endTime x)
  /\ forall y, In y db -> isCandidate p d None y ->
               intervalsOverlap newStart newEnd (startTime y) (endTime y) ->
               y = x.

End Invariant.

(** [Appointment.create]: the new document goes to the end of the
    collection. *)
Definition insertAppointment (db : list Appointment) (a : Appointment)
  : list Appointment := (db ++ [a])%list.

(** ** The other methods of the patient service *)

(** The value [deletePatient] returns. *)
Record DeleteResult : Type := mkDeleteResult {
  success : bool;
  dr_message : string;
  dr_patient : option Patient
}.

Definition hasId (i : ObjectId) (p : Patient) : bool := N.eqb (p_id p) i.

(** Truthiness of a text property: [undefined] and the empty text are
    falsy. *)
Definition truthyString (o : option string) : bool :=
  match o with
  | Some s => negb (String.eqb s "")
  | None => false
  end.

(** Replace the first document the predicate selects. *)
Fixpoint updateFirst (sel : Patient -> bool) (f : Patient -> Patient)
    (store : list Patient) : list Patient :=
  match store with
  | [] => []
  | p :: rest =>
      if sel p then f p :: rest else p :: updateFirst sel f rest
  end.

(** [required] as an update validator: it runs on a path that the
    update sets. *)
Definition requiredIfSet (path msg : string) (v : option string)
  : list (string * string) :=
  match v with
  | Some s => if String.eqb s "" then [(path, msg)] else []
  | None => []
  end.

Definition updateValidationError (errs : list (string * string)) : JsError :=
  {| name := "ValidationError";
     message := "Validation failed: " ++ renderErrors errs;
     statusCode := None |}.

Definition notFoundError : JsError :=
  setStatusCode (newError "Patient not found") 404.

Section PatientById.

Variable emailMatch : string -> bool.

(** The clock reading at the update, for [updatedAt]. *)
Variable now : Z.

(** [Patient.findById(patientId)]. *)
Definition findById (patientId : ObjectId)
  : StoreM.M (list Patient) (option Patient) :=
  fun store => (Ok (List.find (hasId patientId) store), store).

(** [Patient.findOne({ idNumber, _id: { $ne: patientId } })]. *)
Definition findOneOther (v : string) (patientId : ObjectId)
  : StoreM.M (list Patient) (option Patient) :=
  fun store =>
    (Ok (List.find (fun q => hasIdNumber v q && negb (hasId patientId q)) store),
     store).

(** The update validators ([runValidators: true]): the validators of
    the paths the update sets.  The update object carries its keys in
    the order of the record, and the error lists the failing paths
    from the last key to the first. *)
Definition validateUpdate (u : PatientData) : list (string * string) :=
  enumCheck "bloodType" bloodTypeEnum (d_bloodType u)
  ++ requiredIfSet "phone" "Phone number is required" (d_phone u)
  ++ matchCheck emailMatch (d_email u)
  ++ firstFailure (requiredIfSet "gender" "Gender is required" (d_gender u))
       (enumCheck "gender" genderEnum (d_gender u))
  ++ requiredIfSet "idNumber" "ID number is required" (d_idNumber u)
  ++ requiredIfSet "lastName" "Last name is required" (d_lastName u)
  ++ requiredIfSet "firstName" "First name is required" (d_firstName u).

Definition setOpt {A} (new : option A) (old : option A) : option A :=
  match new with
  | Some a => Some a
  | None => old
  end.

(** The document after [$set] of the properties the update carries;
    [timestamps] moves [updatedAt]. *)
Definition applyUpdate (u : PatientData) (p : Patient) : Patient :=
  {| p_id := p_id p;
     firstName := orElse (d_firstName u) (firstName p);
     lastName := orElse (d_lastName u) (lastName p);
     idNumber := orElse (d_idNumber u) (idNumber p);
     dateOfBirth := orElse (d_dateOfBirth u) (dateOfBirth p);
     gender := orElse (d_gender u) (gender p);
     email := setOpt (d_email u) (email p);
     phone := orElse (d_phone u) (phone p);
     bloodType := orElse (d_bloodType u) (bloodType p);
     occupation := setOpt (d_occupation u) (occupation p);
     referredBy := setOpt (d_referredBy u) (referredBy p);
     notes := setOpt (d_notes u) (notes p);
     isActive := orElse (d_isActive u) (isActive p);
     createdAt := createdAt p;
     updatedAt := now |}.

(** Whether the unique index on [idNumber] refuses the new document:
    the number changes and another document holds it. *)
Definition indexRefuses (patientId : ObjectId) (p p' : Patient)
    (store : list Patient) : bool :=
  negb (String.eqb (idNumber p') (idNumber p))
  && existsb (fun q => hasIdNumber (idNumber p') q && negb (hasId patientId q))
       store.

(** [Patient.findByIdAndUpdate(patientId, update, { new: true,
    runValidators })]: validate the update, then rewrite the document
    under the unique index; the answer is the new document, [null] when
    no document has the identifier. *)
Definition findByIdAndUpdate (patientId : ObjectId) (u : PatientData)
    (runValidators : bool) : StoreM.M (list Patient) (option Patient) :=
  fun store =>
    match (if runValidators then validateUpdate u else []) with
    | [] =>
        match List.find (hasId patientId) store with
        | None => (Ok None, store)
        | Some p =>
            let p' := applyUpdate u p in
            if indexRefuses patientId p p' store
            then (Throw duplicateKeyError, store)
            else (Ok (Some p'),
                  updateFirst (hasId patientId) (applyUpdate u) store)
        end
    | errs => (Throw (updateValidationError errs), store)
    end.

(** [PatientService.getPatientById]. *)
Definition getPatientById (patientId : ObjectId)
  : StoreM.M (list Patient) Patient :=
  StoreM.tryCatch
    (patient <- findById patientId ;;
     match patient with
     | None => StoreM.throw notFoundError
     | Some patient => StoreM.ret patient
     end)
    (fun error => StoreM.throw (addStatusCode error)).

(** [PatientService.updatePatient]. *)
Definition updatePatient (patientId : ObjectId) (updateData : PatientData)
  : StoreM.M (list Patient) (option Patient) :=
  StoreM.tryCatch
    (patient <- findById patientId ;;
     match patient with
     | None => StoreM.throw notFoundError
     | Some patient =>
         _ <- (if truthyString (d_idNumber updateData)
                  && negb (String.eqb (orElse (d_idNumber updateData) "")
                             (idNumber patient))
               then
                 existingPatient <-
                   findOneOther (orElse (d_idNumber updateData) "") patientId ;;
                 if isTruthy existingPatient
                 then
                   let error :=
                     newError "Another patient with this ID number already exists" in
                   let error := setStatusCode error 400 in
                   StoreM.throw error
                 else StoreM.ret tt
               else StoreM.ret tt) ;;
         updatedPatient <- findByIdAndUpdate patientId updateData true ;;
         StoreM.ret updatedPatient
     end)
    (fun error => StoreM.throw (addStatusCode error)).

(** The update object [{ isActive: false }]. *)
Definition deactivate : PatientData :=
  {| d_firstName := None; d_lastName := None; d_idNumber := None;
     d_dateOfBirth := None; d_gender := None; d_email := None;
     d_phone := None; d_bloodType := None; d_occupation := None;
     d_referredBy := None; d_notes := None; d_isActive := Some false |}.

(** [PatientService.deletePatient]. *)
Definition deletePatient (patientId : ObjectId)
  : StoreM.M (list Patient) DeleteResult :=
  StoreM.tryCatch
    (patient <- findById patientId ;;
     match patient with
     | None => StoreM.throw notFoundError
     | Some _ =>
         result <- findByIdAndUpdate patientId deactivate false ;;
         StoreM.ret {| success := true;
                       dr_message := "Patient deactivated successfully";
                       dr_patient := result |}
     end)
    (fun error => StoreM.throw (addStatusCode error)).

End PatientById.

(** The refusals of [updatePatient], for the statements below. *)
Definition takenError : JsError :=
  {| name := "Error";
     message := "Another patient with this ID number already exists";
     statusCode := Some 400 |}.

(** Whether [updatePatient] looks for another holder of the number and
    finds one. *)
Definition numberTaken (i : ObjectId) (u : PatientData) (p : Patient)
    (store : list Patient) : bool :=
  truthyString (d_idNumber u)
  && negb (String.eqb (orElse (d_idNumber u) "") (idNumber p))
  && isTruthy (List.find (fun q => hasIdNumber (orElse (d_idNumber u) "") q
                                   && negb (hasId i q)) store).

(** ** Listing patients by page *)

(** Stable insertion sort: documents with equal keys keep the order of
    the collection (the server leaves the order of equal keys open). *)
Fixpoint insertBy {A} (leb : A -> A -> bool) (x : A) (l : list A) : list A :=
  match l with
  | [] => [x]
  | y :: rest => if leb x y then x :: y :: rest else y :: insertBy leb x rest
  end.

Definition sortBy {A} (leb : A -> A -> bool) (l : list A) : list A :=
  fold_right (insertBy leb) [] l.

(** [sort({ createdAt: -1 })]: newest first. *)
Definition newestFirst (p q : Patient) : bool := createdAt q <=? createdAt p.

(** The [filters] object of [getAllPatients]: its [isActive] property,
    if any, and the rest of its conditions as the test they make on a
    document. *)
Record Filters : Type := mkFilters {
  f_isActive : option bool;
  f_rest : Patient -> bool
}.

Record Pagination : Type := mkPagination {
  pg_total : Z;
  pg_page : Z;
  pg_limit : Z;
  pg_totalPages : Z;
  pg_hasNextPage : bool;
  pg_hasPrevPage : bool
}.

Record PatientPage : Type := mkPatientPage {
  pp_patients : list Patient;
  pp_pagination : Pagination
}.

(** [Math.ceil(a / b)] for a count [a] and [b] from 1 to 100 (exact in
    floating point for every count below 2^53). *)
Definition ceilDiv (a b : Z) : Z := - ((- a) / b).

(** The query [{ ...filters, isActive: ... }] as a test on documents. *)
Definition listQuery (filters : Filters) (p : Patient) : bool :=
  f_rest filters p && Bool.eqb (isActive p) (orElse (f_isActive filters) true).

Definition noFilters : Filters :=
  {| f_isActive := None; f_rest := fun _ => true |}.

(** [PatientService.getAllPatients]; [page] and [limit] are the
    integers [parseInt] reads from the options, and an option left out
    takes its default. *)
Definition getAllPatients (page limit : option Z) (filters : option Filters)
  : StoreM.M (list Patient) PatientPage :=
  StoreM.tryCatch
    (fun store =>
       let page := orElse page 1 in
       let limit := orElse limit 10 in
       let filters := orElse filters noFilters in
       let page := Z.max 1 page in
       let limit := Z.min 100 (Z.max 1 limit) in
       let query := listQuery filters in
       let skip := (page - 1) * limit in
       let patients :=
         firstn (Z.to_nat limit)
           (skipn (Z.to_nat skip) (sortBy newestFirst (filter query store))) in
       let totalPatients := Z.of_nat (List.length (filter query store)) in
       let totalPages := ceilDiv totalPatients limit in
       (Ok {| pp_patients := patients;
              pp_pagination :=
                {| pg_total := totalPatients;
                   pg_page := page;
                   pg_limit := limit;
                   pg_totalPages := totalPages;
                   pg_hasNextPage := page <? totalPages;
                   pg_hasPrevPage := 1 <? page |} |},
        store))
    (fun error => StoreM.throw (setStatusCode error 500)).

(** The documents one call of [getAllPatients] lists. *)
Definition patientsOfPage (page limit : option Z) (filters : option Filters)
    (store : list Patient) : list Patient :=
  match fst (getAllPatients page limit filters store) with
  | Ok r => pp_patients r
  | Throw _ => []
  end.

(** Newest first, as a relation. *)
Definition notOlder (p q : Patient) : Prop := createdAt q <= createdAt p.

(** Strictly newer. *)
Definition newer (p q : Patient) : Prop := createdAt q < createdAt p.

(** ** The [age] virtual of the Patient and Professional schemas *)

(** What [getFullYear], [getMonth] and [getDate] read from a date. *)
Record CalendarDate : Type := mkCalendarDate {
  fullYear : Z;
  monthIndex : Z;
  dayOfMonth : Z
}.

Section Age.

(** The calendar of the runtime: the local date of a time value. *)
Variable localDate : Z -> CalendarDate.

(** [today] is the reading of the clock, [new Date()]. *)
Definition age (today dateOfBirth : Z) : Z :=
  let today := localDate today in
  let birthDate := localDate dateOfBirth in
  let age := fullYear today - fullYear birthDate in
  let m := monthIndex today - monthIndex birthDate in
  if (m <? 0) || ((m =? 0) && (dayOfMonth today <? dayOfMonth birthDate))
  then age - 1
  else age.

End Age.

(** One calendar date is not after another, by year, month and day. *)
Definition notAfter (a b : CalendarDate) : Prop :=
  fullYear a < fullYear b
  \/ (fullYear a = fullYear b
      /\ (monthIndex a < monthIndex b
          \/ (monthIndex a = monthIndex b /\ dayOfMonth a <= dayOfMonth b))).

(** The anniversary of a date, [k] years on. *)
Definition anniversary (k : Z) (a : CalendarDate) : CalendarDate :=
  {| fullYear := fullYear a + k;
     monthIndex := monthIndex a;
     dayOfMonth := dayOfMonth a |}.

(** ** Invariants of the patient collection *)

Definition uniqueIds (store : list Patient) : Prop :=
  NoDup (map p_id store).

Definition uniqueIdNumbers (store : list Patient) : Prop :=
  NoDup (map idNumber store).

(** A document the validators of the schema accept. *)
Definition validDocument (emailMatch : string -> bool) (p : Patient) : Prop :=
  firstName p <> "" /\ lastName p <> "" /\ idNumber p <> "" /\ phone p <> ""
  /\ inEnum (gender p) genderEnum = true
  /\ inEnum (bloodType p) bloodTypeEnum = true
  /\ (forall e, email p = Some e -> e <> "" -> emailMatch e = true).

(** The invariant for every practitioner and every day. *)
Definition nonOverlapEverywhere (tza : Z) (db : list Appointment) : Prop :=
  forall p d, nonOverlapInvariant tza db p d.

(** The store without the documents of one identifier. *)
Definition withoutId (e : ObjectId) (db : list Appointment) : list Appointment :=
  filter (fun a => negb (N.eqb (_id a) e)) db.

(** ** A sample clinic *)

Module Examples.

(** Santiago in March: three hours behind UTC. *)
Definition santiago : Z := -10800000.

(** 2024-03-01T00:00:00.000 local time, and the day after. *)
Definition march1 : Z := 1709262000000.
Definition march2 : Z := march1 + JsDate.msPerDay.

Definition drB_09_11 : Appointment :=
  mkAppointment 1%N 100%N march1 "09:00" "11:00" "Initial Assessment"
    "Scheduled" "Dr. B" None.

Definition drA_09_10 : Appointment :=
  mkAppointment 2%N 101%N march1 "09:00" "10:00" "Treatment Session"
    "Confirmed" "Dr. A" (Some "Room 1").

Definition drA_noshow : Appointment :=
  mkAppointment 3%N 102%N march1 "09:30" "10:30" "Follow-up"
    "No-Show" "Dr. A" None.

Definition drA_14_15 : Appointment :=
  mkAppointment 4%N 103%N march1 "14:00" "15:00" "Follow-up"
    "Scheduled" "Dr. A" None.

Definition drA_next_day : Appointment :=
  mkAppointment 5%N 101%N march2 "10:00" "11:00" "Treatment Session"
    "Scheduled" "Dr. A" (Some "Room 1").

Definition clinic : list Appointment :=
  [drB_09_11; drA_09_10; drA_noshow; drA_14_15; drA_next_day].

(** The appointment proposed for Dr. A, 10:00 to 11:00 on March 1. *)
Definition proposed : Appointment :=
  mkAppointment 6%N 104%N march1 "10:00" "11:00" "Follow-up"
    "Scheduled" "Dr. A" None.

(** A collection in which Dr. A has the one appointment of the
    scenario. *)
Definition scenarioClinic : list Appointment := [drB_09_11; drA_14_15].

Definition anyEmail : string -> bool := fun _ => true.

Definition ana : Patient :=
  {| p_id := 10%N; firstName := "Ana"; lastName := "Rojas";
     idNumber := "11.111.111-1"; dateOfBirth := 631152000000;
     gender := "Female"; email := None; phone := "+56 9 1111 1111";
     bloodType := "Unknown"; occupation := None; referredBy := None;
     notes := None; isActive := true;
     createdAt := 1700000000000; updatedAt := 1700000000000 |}.

Definition patients : list Patient := [ana].

(** Complete data for a patient that is not stored yet. *)
Definition luis : PatientData :=
  {| d_firstName := Some "Luis"; d_lastName := Some "Soto";
     d_idNumber := Some "22.222.222-2"; d_dateOfBirth := Some 315532800000;
     d_gender := Some "Male"; d_email := None;
     d_phone := Some "+56 9 2222 2222"; d_bloodType := Some "O+";
     d_occupation := None; d_referredBy := None; d_notes := None;
     d_isActive := None |}.

(** The same identity number as [ana]. *)
Definition anaAgain : PatientData :=
  {| d_firstName := Some "Ana"; d_lastName := Some "Rojas";
     d_idNumber := Some "11.111.111-1"; d_dateOfBirth := Some 631152000000;
     d_gender := Some "Female"; d_email := None;
     d_phone := Some "+56 9 1111 1111"; d_bloodType := None;
     d_occupation := None; d_referredBy := None; d_notes := None;
     d_isActive := None |}.

(** Data of a new patient with the first name missing. *)
Definition noFirstName : PatientData :=
  {| d_firstName := None; d_lastName := Some "Soto";
     d_idNumber := Some "22.222.222-2"; d_dateOfBirth := Some 315532800000;
     d_gender := Some "Male"; d_email := None;
     d_phone := Some "+56 9 2222 2222"; d_bloodType := None;
     d_occupation := None; d_referredBy := None; d_notes := None;
     d_isActive := None |}.

End Examples.

(** ** The HH:MM format of the times *)

(** The character of a decimal digit. *)
Definition digit (d : nat) : ascii := ascii_of_nat (48 + d).

Definition twoDigits (n : nat) : string :=
  String (digit (n / 10)) (String (digit (n mod 10)) EmptyString).

(** The zero-padded 24-hour text of a time of day. *)
Definition hhmm (h m : nat) : string :=
  twoDigits h ++ ":" ++ twoDigits m.

(** The text of a time given in minutes since midnight. *)
Definition clock (t : nat) : string := hhmm (t / 60) (t mod 60).

(** ** A sample register of patients *)

Module Register.

(** [luis] as [createPatient] stores him under identifier 11. *)
Definition luisStored : Patient :=
  {| p_id := 11%N; firstName := "Luis"; lastName := "Soto";
     idNumber := "22.222.222-2"; dateOfBirth := 315532800000;
     gender := "Male"; email := None; phone := "+56 9 2222 2222";
     bloodType := "O+"; occupation := None; referredBy := None;
     notes := None; isActive := true;
     createdAt := Examples.march1; updatedAt := Examples.march1 |}.

Definition register : list Patient := [Examples.ana; luisStored].

(** Update objects for [luisStored]: a new phone number sent with his own
    identity number; the identity number of [ana]; an empty first
    name. *)
Definition newPhone : PatientData :=
  {| d_firstName := None; d_lastName := None;
     d_idNumber := Some "22.222.222-2";
     d_dateOfBirth := None; d_gender := None; d_email := None;
     d_phone := Some "+56 9 3333 3333"; d_bloodType := None;
     d_occupation := None; d_referredBy := None; d_notes := None;
     d_isActive := None |}.

Definition numberOfAna : PatientData :=
  {| d_firstName := None; d_lastName := None;
     d_idNumber := Some "11.111.111-1";
     d_dateOfBirth := None; d_gender := None; d_email := None;
     d_phone := None; d_bloodType := None; d_occupation := None;
     d_referredBy := None; d_notes := None; d_isActive := None |}.

Definition emptyFirstName : PatientData :=
  {| d_firstName := Some ""; d_lastName := None; d_idNumber := None;
     d_dateOfBirth := None; d_gender := None; d_email := None;
     d_phone := None; d_bloodType := None; d_occupation := None;
     d_referredBy := None; d_notes := None; d_isActive := None |}.

(** The time of the later calls: 2024-03-02T00:00:00.000 in Santiago. *)
Definition later : Z := Examples.march2.

(** The proleptic Gregorian calendar: the date of a day number counted
    from 1970-01-01. *)
Definition civilFromDays (days : Z) : CalendarDate :=
  let z := days + 719468 in
  let era := z / 146097 in
  let doe := z - era * 146097 in
  let yoe := (doe - doe / 1460 + doe / 36524 - doe / 146096) / 365 in
  let doy := doe - (365 * yoe + yoe / 4 - yoe / 100) in
  let mp := (5 * doy + 2) / 153 in
  let d := doy - (153 * mp + 2) / 5 + 1 in
  let m := if mp <? 10 then mp + 3 else mp - 9 in
  let y := yoe + era * 400 + (if m <=? 2 then 1 else 0) in
  {| fullYear := y; monthIndex := m - 1; dayOfMonth := d |}.

Definition santiagoDate (t : Z) : CalendarDate :=
  civilFromDays (JsDate.Day (JsDate.LocalTime Examples.santiago t)).

(** A stored appointment of Dr. A with an empty interval, 09:30 to
    09:30, and a clinic that holds it beside the one from 09:00 to
    10:00. *)
Definition drA_empty : Appointment :=
  mkAppointment 7%N 105%N Examples.march1 "09:30" "09:30" "Other"
    "Scheduled" "Dr. A" None.

Definition flawedClinic : list Appointment :=
  [Examples.drA_09_10; drA_empty].

(** Two appointments of Dr. A on March 1 and nothing else. *)
Definition smallClinic : list Appointment :=
  [Examples.drA_09_10; Examples.drA_14_15].

End Register.

(** ** Facts on the string order *)

Module StrOrdFacts.

Lemma compare_refl (a : string) : String.compare a a = Eq.
Proof.
  induction a as [|c a IH]; simpl; [reflexivity|].
  unfold Ascii.compare. now rewrite N.compare_refl.
Qed.

Lemma compare_lt_trans (a b c : string) :
  String.compare a b = Lt -> String.compare b c = Lt -> String.compare a c = Lt.
Proof.
  revert b c.
  induction a as [|x a IH]; intros [|y b] [|z c]; simpl; try congruence.
  unfold Ascii.compare.
  destruct (N.compare_spec (N_of_ascii x) (N_of_ascii y)) as [Exy|Lxy|Gxy];
    destruct (N.compare_spec (N_of_ascii y) (N_of_ascii z)) as [Eyz|Lyz|Gyz];
    try congruence; intros Hab Hbc.
  - rewrite Exy, Eyz, N.compare_refl. eauto.
  - rewrite Exy. now apply N.compare_lt_iff in Lyz as ->.
  - rewrite <- Eyz. now apply N.compare_lt_iff in Lxy as ->.
  - assert (H : (N_of_ascii x < N_of_ascii z)%N) by lia.
    now apply N.compare_lt_iff in H as ->.
Qed.

Lemma lt_irrefl (a : string) : (a < a)%js = false.
Proof. unfold StrOrd.lt, String.ltb. now rewrite compare_refl. Qed.

Lemma lt_trans (a b c : string) :
  (a < b)%js = true -> (b < c)%js = true -> (a < c)%js = true.
Proof.
  unfold StrOrd.lt, String.ltb. intros Hab Hbc.
  destruct (String.compare a b) eqn:Eab; try discriminate.
  destruct (String.compare b c) eqn:Ebc; try discriminate.
  now rewrite (compare_lt_trans a b c Eab Ebc).
Qed.

(** [a <= b] is the negation of [b < a]. *)
Lemma le_nlt (a b : string) : (a <= b)%js = negb (b < a)%js.
Proof.
  unfold StrOrd.le, StrOrd.lt, String.leb, String.ltb.
  rewrite (String.compare_antisym b a).
  now destruct (String.compare a b).
Qed.

Lemma gt_lt (a b : string) : (a > b)%js = (b < a)%js.
Proof. reflexivity. Qed.

Lemma ge_nlt (a b : string) : (a >= b)%js = negb (a < b)%js.
Proof. unfold StrOrd.ge. fold (StrOrd.le b a). apply le_nlt. Qed.

Lemma nlt_nlt_eq (a b : string) :
  (a < b)%js = false -> (b < a)%js = false -> a = b.
Proof.
  unfold StrOrd.lt, String.ltb. rewrite (String.compare_antisym b a).
  destruct (String.compare a b) eqn:E; simpl; try discriminate.
  intros _ _. now apply String.compare_eq_iff.
Qed.

Lemma lt_asym (a b : string) : (a < b)%js = true -> (b < a)%js = false.
Proof.
  intro H. destruct (b < a)%js eqn:E; [|reflexivity].
  pose proof (lt_trans a b a H E) as C. now rewrite lt_irrefl in C.
Qed.

Lemma lt_le_trans (a b c : string) :
  (a < b)%js = true -> (b <= c)%js = true -> (a < c)%js = true.
Proof.
  rewrite le_nlt. intros Hab Hbc. apply negb_true_iff in Hbc.
  destruct (b < c)%js eqn:E.
  - eapply lt_trans; eauto.
  - now rewrite <- (nlt_nlt_eq b c E Hbc).
Qed.

Lemma le_lt_trans (a b c : string) :
  (a <= b)%js = true -> (b < c)%js = true -> (a < c)%js = true.
Proof.
  rewrite le_nlt. intros Hab Hbc. apply negb_true_iff in Hab.
  destruct (a < b)%js eqn:E.
  - eapply lt_trans; eauto.
  - now rewrite (nlt_nlt_eq a b E Hab).
Qed.

Lemma nlt_trans (a b c : string) :
  (b < a)%js = false -> (c < b)%js = false -> (c < a)%js = false.
Proof.
  intros Hab Hbc. destruct (c < a)%js eqn:E; [|reflexivity].
  destruct (a < b)%js eqn:Eab.
  - now rewrite (lt_trans c a b E Eab) in Hbc.
  - rewrite (nlt_nlt_eq a b Eab Hab) in E. congruence.
Qed.

Lemma nlt_lt_trans (a b c : string) :
  (b < a)%js = false -> (b < c)%js = true -> (a < c)%js = true.
Proof.
  intros Hab Hbc. apply (le_lt_trans a b c); [|exact Hbc].
  rewrite le_nlt, Hab. reflexivity.
Qed.

Lemma lt_nlt_trans (a b c : string) :
  (a < b)%js = true -> (c < b)%js = false -> (a < c)%js = true.
Proof.
  intros Hab Hbc. apply (lt_le_trans a b c); [exact Hab|].
  rewrite le_nlt, Hbc. reflexivity.
Qed.

End StrOrdFacts.

(** Decide a goal on the order of a few strings: every comparison is
    reduced to [<], each one is split, and the transitive consequences
    are drawn. *)
Ltac str_norm :=
  unfold wellFormed, overlaps, appOverlaps, overlapTest, startInside,
    endInside, covers, strictlyContains in *;
  rewrite ?StrOrdFacts.ge_nlt, ?StrOrdFacts.le_nlt, ?StrOrdFacts.gt_lt in *.

Ltac str_saturate :=
  repeat match goal with
  | H1 : (?a < ?b)%js = true, H2 : (?b < ?c)%js = true |- _ =>
      lazymatch goal with
      | _ : (a < c)%js = true |- _ => fail
      | _ => pose proof (StrOrdFacts.lt_trans a b c H1 H2)
      end
  | H1 : (?b < ?a)%js = false, H2 : (?b < ?c)%js = true |- _ =>
      lazymatch goal with
      | _ : (a < c)%js = true |- _ => fail
      | _ => pose proof (StrOrdFacts.nlt_lt_trans a b c H1 H2)
      end
  | H1 : (?a < ?b)%js = true, H2 : (?c < ?b)%js = false |- _ =>
      lazymatch goal with
      | _ : (a < c)%js = true |- _ => fail
      | _ => pose proof (StrOrdFacts.lt_nlt_trans a b c H1 H2)
      end
  | H1 : (?a < ?b)%js = false, H2 : (?b < ?a)%js = false |- _ =>
      first [ subst a | subst b
            | lazymatch goal with
              | _ : a = b |- _ => fail
              | _ => pose proof (StrOrdFacts.nlt_nlt_eq a b H1 H2)
              end ]
  | H : (?a < ?a)%js = true |- _ =>
      rewrite StrOrdFacts.lt_irrefl in H; discriminate H
  end.

Ltac str_rewrite :=
  repeat match goal with
  | H : (?a < ?b)%js = _ |- context [(?a < ?b)%js] => rewrite H
  | H : (?a < ?b)%js = _, H' : context [(?a < ?b)%js] |- _ =>
      lazymatch type of H' with
      | (a < b)%js = _ => fail
      | _ => rewrite H in H'
      end
  end.

Ltac str_split :=
  repeat (str_rewrite;
          match goal with
          | |- context [(?a < ?b)%js] => destruct (a < b)%js eqn:?
          | H : context [(?a < ?b)%js] |- _ =>
              lazymatch type of H with
              | (a < b)%js = _ => fail
              | _ => destruct (a < b)%js eqn:?
              end
          end);
  str_rewrite.

Ltac str_order :=
  str_norm; str_split; simpl in *;
  try solve [intuition congruence];
  str_saturate; simpl in *; solve [intuition congruence].

Section OrderChecks.

Lemma overlapTest_iff (ns ne es ee : string) :
  overlapTest ns ne es ee = true <->
  startInside ns es ee \/ endInside ne es ee \/ covers ns ne es ee.
Proof.
  unfold overlapTest, startInside, endInside, covers, StrOrd.ge, StrOrd.gt.
  rewrite !orb_true_iff, !andb_true_iff. tauto.
Qed.

End OrderChecks.

(** ** The overlap test against the geometry of intervals *)

Section OverlapTest.

Variables ns ne es ee : string.

(** Overlapping intervals are always caught by the test. *)
Lemma overlaps_overlapTest :
  overlaps ns ne es ee = true -> overlapTest ns ne es ee = true.
Proof. intro H. str_order. Qed.

(** On well-formed intervals the test fires on overlaps only. *)
Lemma overlapTest_overlaps :
  wellFormed ns ne -> wellFormed es ee ->
  overlapTest ns ne es ee = true -> overlaps ns ne es ee = true.
Proof. intros Hn He H. str_order. Qed.

Lemma overlapTest_false_disjoint :
  overlapTest ns ne es ee = false -> overlaps ns ne es ee = false.
Proof.
  intro H. destruct (overlaps ns ne es ee) eqn:E; [|reflexivity].
  apply overlaps_overlapTest in E. congruence.
Qed.

End OverlapTest.

Lemma overlaps_sym (s1 e1 s2 e2 : string) :
  overlaps s1 e1 s2 e2 = overlaps s2 e2 s1 e1.
Proof. unfold overlaps. apply andb_comm. Qed.

(** Two well-formed intervals overlap exactly when they share an instant. *)
Lemma overlaps_common_instant (s1 e1 s2 e2 : string) :
  wellFormed s1 e1 -> wellFormed s2 e2 ->
  (overlaps s1 e1 s2 e2 = true <->
   exists t, ((s1 <= t)%js = true /\ (t < e1)%js = true)
             /\ ((s2 <= t)%js = true /\ (t < e2)%js = true)).
Proof.
  intros H1 H2. split.
  - intro H. destruct (s1 < s2)%js eqn:E.
    + exists s2. str_order.
    + exists s1. str_order.
  - intros [t [[A B] [C D]]]. str_order.
Qed.

(** ** The day window *)

Section DayWindow.

Variable tza : Z.

Lemma startOfDay_eq (d : Z) :
  startOfDay tza d = (d + tza) / 86400000 * 86400000 - tza.
Proof.
  unfold startOfDay, JsDate.setHours, JsDate.UTC, JsDate.MakeDate,
    JsDate.Day, JsDate.LocalTime, JsDate.MakeTime, JsDate.msPerDay,
    JsDate.msPerHour, JsDate.msPerMinute, JsDate.msPerSecond.
  lia.
Qed.

Lemma endOfDay_eq (d : Z) :
  endOfDay tza d = startOfDay tza d + 86399999.
Proof.
  unfold endOfDay, startOfDay, JsDate.setHours, JsDate.UTC, JsDate.MakeDate,
    JsDate.Day, JsDate.LocalTime, JsDate.MakeTime, JsDate.msPerDay,
    JsDate.msPerHour, JsDate.msPerMinute, JsDate.msPerSecond.
  lia.
Qed.

(** The window of a date is the local day the date is in: it starts on
    local midnight, spans a day less one millisecond, and holds the
    date. *)
Lemma startOfDay_midnight (d : Z) :
  (JsDate.LocalTime tza (startOfDay tza d)) mod JsDate.msPerDay = 0.
Proof.
  rewrite startOfDay_eq. unfold JsDate.LocalTime, JsDate.msPerDay.
  replace ((d + tza) / 86400000 * 86400000 - tza + tza)
    with ((d + tza) / 86400000 * 86400000) by lia.
  apply Z.mod_mul. lia.
Qed.

(** The window the code computes is the inclusive window of the local
    day: [startOfDay] is the local midnight at or before the date and
    [endOfDay] is 23:59:59.999 of that day. *)
Lemma inDayWindow_code (d t : Z) :
  inDayWindow tza d t <-> startOfDay tza d <= t <= endOfDay tza d.
Proof.
  unfold inDayWindow. rewrite endOfDay_eq, startOfDay_eq.
  pose proof (Z.mul_div_le (d + tza) 86400000 ltac:(lia)) as D1.
  pose proof (Z.mul_succ_div_gt (d + tza) 86400000 ltac:(lia)) as D2.
  split.
  - intros (m & Hm & Hd & Ht).
    apply Z.mod_divide in Hm; [|lia]. destruct Hm as [k Hk].
    assert (E : (d + tza) / 86400000 = k).
    { symmetry. apply (Z.div_unique (d + tza) 86400000 k (d - m)); lia. }
    rewrite E. lia.
  - intros Ht. exists ((d + tza) / 86400000 * 86400000 - tza).
    split; [|lia].
    replace ((d + tza) / 86400000 * 86400000 - tza + tza)
      with ((d + tza) / 86400000 * 86400000) by lia.
    apply Z.mod_mul. lia.
Qed.

Lemma inDayWindow_self (d : Z) : inDayWindow tza d d.
Proof.
  apply inDayWindow_code. rewrite endOfDay_eq, startOfDay_eq.
  pose proof (Z.mul_div_le (d + tza) 86400000 ltac:(lia)).
  pose proof (Z.mul_succ_div_gt (d + tza) 86400000 ltac:(lia)).
  lia.
Qed.

(** Dates of one local day have the same window. *)
Lemma inDayWindow_iff (d t : Z) :
  inDayWindow tza d t <->
  JsDate.Day (JsDate.LocalTime tza t) = JsDate.Day (JsDate.LocalTime tza d).
Proof.
  rewrite inDayWindow_code, endOfDay_eq, startOfDay_eq.
  unfold JsDate.Day, JsDate.LocalTime, JsDate.msPerDay.
  pose proof (Z.mul_div_le (d + tza) 86400000 ltac:(lia)) as D1.
  pose proof (Z.mul_succ_div_gt (d + tza) 86400000 ltac:(lia)) as D2.
  pose proof (Z.mul_div_le (t + tza) 86400000 ltac:(lia)) as T1.
  pose proof (Z.mul_succ_div_gt (t + tza) 86400000 ltac:(lia)) as T2.
  remember ((d + tza) / 86400000) as qd.
  remember ((t + tza) / 86400000) as qt.
  split; intro W; lia.
Qed.

End DayWindow.

(** ** The candidate set and the scan *)

Lemma nin_cancelled (a : Appointment) :
  nin (status a) ["Cancelled"; "No-Show"]%string = true <-> ~ isCancelled a.
Proof.
  unfold nin, isCancelled. simpl.
  destruct (String.eqb_spec (status a) "Cancelled") as [E1|E1];
    destruct (String.eqb_spec (status a) "No-Show") as [E2|E2];
    simpl; split; intros H; try discriminate; try reflexivity; tauto.
Qed.

Lemma ne_opt_iff (i : ObjectId) (o : option ObjectId) :
  ne_opt i o = true <-> forall e, o = Some e -> i <> e.
Proof.
  destruct o as [e|]; simpl.
  - rewrite negb_true_iff, N.eqb_neq. split.
    + intros H e' [= <-]. exact H.
    + intros H. now apply H.
  - split; [intros _ e [=] | reflexivity].
Qed.

Section Candidates.

Variable tza : Z.

Lemma matches_iff (p : string) (d : Z) (ex : option ObjectId) (a : Appointment) :
  matches (buildQuery tza p d ex) a = true <-> isCandidate tza p d ex a.
Proof.
  unfold matches, isCandidate. rewrite inDayWindow_code.
  assert (Q : forall q, q = buildQuery tza p d ex ->
              q_practitioner q = p /\ q_date_gte q = startOfDay tza d
              /\ q_date_lte q = endOfDay tza d
              /\ q_status_nin q = ["Cancelled"; "No-Show"]%string
              /\ q_id_ne q = ex).
  { intros q ->. unfold buildQuery. destruct ex; simpl; auto. }
  destruct (Q _ eq_refl) as (-> & -> & -> & -> & ->).
  rewrite !andb_true_iff, String.eqb_eq, !Z.leb_le, nin_cancelled, ne_opt_iff.
  tauto.
Qed.

Lemma In_candidates (db : list Appointment) (p : string) (d : Z)
    (ex : option ObjectId) (a : Appointment) :
  In a (candidates tza db p d ex) <-> In a db /\ isCandidate tza p d ex a.
Proof.
  unfold candidates, find. rewrite filter_In, matches_iff. reflexivity.
Qed.

Lemma candidates_app (db1 db2 : list Appointment) (p : string) (d : Z)
    (ex : option ObjectId) :
  candidates tza (db1 ++ db2) p d ex
  = (candidates tza db1 p d ex ++ candidates tza db2 p d ex)%list.
Proof. unfold candidates, find. apply filter_app. Qed.

Lemma candidates_cons (a : Appointment) (db : list Appointment) (p : string)
    (d : Z) (ex : option ObjectId) :
  candidates tza (a :: db) p d ex
  = if matches (buildQuery tza p d ex) a
    then a :: candidates tza db p d ex
    else candidates tza db p d ex.
Proof. reflexivity. Qed.

(** Excluding an identifier only removes candidates. *)
Lemma candidates_exclude_incl (db : list Appointment) (p : string) (d : Z)
    (e : ObjectId) (a : Appointment) :
  In a (candidates tza db p d (Some e)) ->
  In a (candidates tza db p d None) /\ _id a <> e.
Proof.
  rewrite !In_candidates. unfold isCandidate.
  intros (Hin & Hp & Hw & Hc & He). split; [|now apply He].
  split; [exact Hin|]. split; [exact Hp|]. split; [exact Hw|].
  split; [exact Hc|]. intros e' [=].
Qed.

End Candidates.

Lemma scan_true_iff (ns ne : string) (l : list Appointment) :
  scan ns ne l = true <->
  exists x, In x l /\ overlapTest ns ne (startTime x) (endTime x) = true.
Proof.
  induction l as [|a l IH]; simpl.
  - split; [discriminate | intros (x & [] & _)].
  - destruct (overlapTest ns ne (startTime a) (endTime a)) eqn:E.
    + split; [intros _; exists a; auto | reflexivity].
    + rewrite IH. split.
      * intros (x & Hin & Hx). exists x. auto.
      * intros (x & [<-|Hin] & Hx); [congruence | exists x; auto].
Qed.

Lemma scan_false_iff (ns ne : string) (l : list Appointment) :
  scan ns ne l = false <->
  forall x, In x l -> overlapTest ns ne (startTime x) (endTime x) = false.
Proof.
  split.
  - intros H x Hin.
    destruct (overlapTest ns ne (startTime x) (endTime x)) eqn:E; [|reflexivity].
    assert (scan ns ne l = true) by (apply scan_true_iff; eauto). congruence.
  - intros H. destruct (scan ns ne l) eqn:E; [|reflexivity].
    apply scan_true_iff in E as (x & Hin & Hx). rewrite (H x Hin) in Hx.
    discriminate.
Qed.

Lemma scan_app (ns ne : string) (l1 l2 : list Appointment) :
  scan ns ne (l1 ++ l2) = scan ns ne l1 || scan ns ne l2.
Proof.
  induction l1 as [|a l1 IH]; simpl; [reflexivity|].
  now destruct (overlapTest ns ne (startTime a) (endTime a)).
Qed.

Lemma pairwiseDisjoint_snoc (l : list Appointment) (a : Appointment) :
  pairwiseDisjoint l ->
  (forall b, In b l -> appOverlaps b a = false) ->
  pairwiseDisjoint (l ++ [a]).
Proof.
  induction l as [|x l IH]; simpl.
  - intros _ _. split; [intros b [] | exact I].
  - intros [Hx Hl] Ha. split.
    + intros b Hb. apply in_app_or in Hb as [Hb|[<-|[]]]; auto.
    + apply IH; auto.
Qed.

Lemma pairwiseOn_filter (P : Appointment -> Prop) (f : Appointment -> bool)
    (l : list Appointment) :
  (forall a, f a = true <-> P a) ->
  (pairwiseOn P l <-> pairwiseDisjoint (filter f l)).
Proof.
  intros Hf. induction l as [|a l IH]; simpl; [tauto|].
  destruct (f a) eqn:E; simpl.
  - rewrite IH. apply Hf in E. split.
    + intros [H1 H2]. split; [|exact H2]. intros b Hb.
      apply filter_In in Hb as [Hb Hfb]. apply Hf in Hfb. auto.
    + intros [H1 H2]. split; [|exact H2]. intros _ b Hb Pb.
      apply H1. apply filter_In. split; [exact Hb|]. now apply Hf.
  - rewrite IH. split; [tauto|]. intros H. split; [|exact H].
    intros Pa. apply Hf in Pa. congruence.
Qed.

(** The invariant, stated on the store, read on the list [find]
    loads. *)
Lemma nonOverlapInvariant_candidates (tza : Z) (db : list Appointment)
    (p : string) (d : Z) :
  nonOverlapInvariant tza db p d <->
  (forall a, In a (candidates tza db p d None) ->
             wellFormed (startTime a) (endTime a))
  /\ pairwiseDisjoint (candidates tza db p d None).
Proof.
  unfold nonOverlapInvariant.
  rewrite (pairwiseOn_filter (isCandidate tza p d None)
             (matches (buildQuery tza p d None)) db (matches_iff tza p d None)).
  fold (find (buildQuery tza p d None) db).
  fold (candidates tza db p d None).
  split; intros [H1 H2]; (split; [|exact H2]).
  - intros a Ha. apply In_candidates in Ha as [Ha Hc]. auto.
  - intros a Ha Hc. apply H1. apply In_candidates. auto.
Qed.

(** ** The conflict detector *)

Section ConflictDetector.

Variable tza : Z.

Lemma checkConflict_true_iff (db : list Appointment) (p : string) (d : Z)
    (ns ne : string) (ex : option ObjectId) :
  checkConflict tza db p d ns ne ex = true <->
  exists x, In x (candidates tza db p d ex)
            /\ overlapTest ns ne (startTime x) (endTime x) = true.
Proof. unfold checkConflict. apply scan_true_iff. Qed.

Lemma checkConflict_false_iff (db : list Appointment) (p : string) (d : Z)
    (ns ne : string) (ex : option ObjectId) :
  checkConflict tza db p d ns ne ex = false <->
  forall x, In x (candidates tza db p d ex) ->
            overlapTest ns ne (startTime x) (endTime x) = false.
Proof. unfold checkConflict. apply scan_false_iff. Qed.

(** C1. When the stored appointments of practitioner [p] on the day of
    [d] that are neither Cancelled nor No-Show have well-formed,
    pairwise non-overlapping intervals and [checkConflict p d ns ne]
    answers [false] for a well-formed proposal, the proposed interval
    overlaps the interval of none of them, and the store with the
    proposed appointment inserted still satisfies the non-overlap
    invariant: [false] is a safe-to-book answer. *)
Theorem checkConflict_false_safe_to_book
    (db : list Appointment) (p : string) (d : Z) (ns ne : string)
    (a : Appointment) :
  nonOverlapInvariant tza db p d ->
  wellFormed ns ne ->
  checkConflict tza db p d ns ne None = false ->
  startTime a = ns -> endTime a = ne ->
  (forall x, In x db -> isCandidate tza p d None x ->
             overlaps ns ne (startTime x) (endTime x) = false)
  /\ nonOverlapInvariant tza (insertAppointment db a) p d.
Proof.
  intros Hinv Hn Hc Hs He.
  apply nonOverlapInvariant_candidates in Hinv as [Hwf Hpd].
  rewrite checkConflict_false_iff in Hc.
  assert (Hno : forall x, In x (candidates tza db p d None) ->
                          overlaps ns ne (startTime x) (endTime x) = false).
  { intros x Hx. apply overlapTest_false_disjoint. auto. }
  split.
  { intros x Hx Hcand. apply Hno. apply In_candidates. auto. }
  apply nonOverlapInvariant_candidates. unfold insertAppointment.
  rewrite candidates_app, candidates_cons.
  destruct (matches (buildQuery tza p d None) a).
  - split.
    + intros x Hx. apply in_app_or in Hx as [Hx|[<-|[]]]; [auto|].
      now rewrite Hs, He.
    + apply pairwiseDisjoint_snoc; [exact Hpd|].
      intros b Hb. unfold appOverlaps. rewrite overlaps_sym, Hs, He. auto.
  - change (candidates tza [] p d None) with (@nil Appointment).
    rewrite app_nil_r. split; assumption.
Qed.

(** C2. The candidate set is exactly the stored appointments of the
    given practitioner whose date is in the inclusive day window of
    the given date (local midnight to 23:59:59.999), whose status is
    neither Cancelled nor No-Show and, when [excludeId] is given, whose
    identifier differs from it.  [checkConflict] returns [true] exactly
    when some such appointment has the new start in
    [[existingStart, existingEnd)], or the new end in
    [(existingStart, existingEnd]], or lies within the new interval;
    it returns [false] otherwise, and when there is no such
    appointment. *)
Theorem checkConflict_spec
    (db : list Appointment) (p : string) (d : Z) (ns ne : string)
    (ex : option ObjectId) :
  (forall a, In a (candidates tza db p d ex) <->
             In a db /\ isCandidate tza p d ex a)
  /\ (checkConflict tza db p d ns ne ex = true <->
      exists x, In x db /\ isCandidate tza p d ex x
                /\ (startInside ns (startTime x) (endTime x)
                    \/ endInside ne (startTime x) (endTime x)
                    \/ covers ns ne (startTime x) (endTime x)))
  /\ (checkConflict tza db p d ns ne ex = false <->
      forall x, In x db -> isCandidate tza p d ex x ->
                ~ (startInside ns (startTime x) (endTime x)
                   \/ endInside ne (startTime x) (endTime x)
                   \/ covers ns ne (startTime x) (endTime x)))
  /\ ((forall x, In x db -> ~ isCandidate tza p d ex x) ->
      checkConflict tza db p d ns ne ex = false).
Proof.
  split; [intro a; apply In_candidates|].
  split; [|split].
  - rewrite checkConflict_true_iff. split.
    + intros (x & Hin & Hx). apply In_candidates in Hin as [Hin Hc].
      exists x. split; [exact Hin|]. split; [exact Hc|].
      now apply overlapTest_iff.
    + intros (x & Hin & Hc & Hx). exists x.
      split; [apply In_candidates; auto | now apply overlapTest_iff].
  - rewrite checkConflict_false_iff. split.
    + intros H x Hin Hc. rewrite <- overlapTest_iff.
      rewrite (H x (proj2 (In_candidates tza db p d ex x) (conj Hin Hc))).
      discriminate.
    + intros H x Hin. apply In_candidates in Hin as [Hin Hc].
      specialize (H x Hin Hc). rewrite <- overlapTest_iff in H.
      now destruct (overlapTest ns ne (startTime x) (endTime x)).
  - intro H. apply checkConflict_false_iff. intros x Hin.
    apply In_candidates in Hin as [Hin Hc]. now elim (H x Hin).
Qed.

(** C3. An appointment whose status is Cancelled or No-Show is never
    in the candidate set, wherever it is stored and whatever its
    interval, and the answer of [checkConflict] is the one the store
    gives without it. *)
Theorem cancelled_never_conflicts
    (db1 db2 : list Appointment) (a : Appointment) (p : string) (d : Z)
    (ns ne : string) (ex : option ObjectId) :
  isCancelled a ->
  ~ In a (candidates tza (db1 ++ a :: db2) p d ex)
  /\ checkConflict tza (db1 ++ a :: db2) p d ns ne ex
     = checkConflict tza (db1 ++ db2) p d ns ne ex.
Proof.
  intros Hc.
  assert (Hm : matches (buildQuery tza p d ex) a = false).
  { destruct (matches (buildQuery tza p d ex) a) eqn:E; [|reflexivity].
    apply matches_iff in E. destruct E as (_ & _ & Hn & _). contradiction. }
  split.
  - rewrite In_candidates. intros (_ & _ & _ & Hn & _). contradiction.
  - unfold checkConflict.
    now rewrite !candidates_app, candidates_cons, Hm.
Qed.

(** C4. Back-to-back intervals do not conflict: when every candidate
    of the practitioner and day (in particular a single one) is a
    well-formed interval that ends where the well-formed proposal
    starts, or starts where it ends, [checkConflict] returns [false]. *)
Theorem back_to_back_no_conflict
    (db : list Appointment) (p : string) (d : Z) (ns ne : string)
    (ex : option ObjectId) :
  (forall x, In x (candidates tza db p d ex) ->
             backToBack ns ne (startTime x) (endTime x)) ->
  checkConflict tza db p d ns ne ex = false.
Proof.
  intros Hall. apply checkConflict_false_iff. intros x Hx.
  destruct (Hall x Hx) as (Hn & He & Hb).
  destruct Hb as [Hb|Hb]; [rewrite Hb in *|rewrite <- Hb in *]; str_order.
Qed.

(** C5. Containment conflicts in both directions: if a candidate's
    well-formed interval strictly contains the well-formed proposal, or
    the proposal strictly contains the candidate's interval,
    [checkConflict] returns [true]. *)
Theorem containment_conflicts
    (db : list Appointment) (p : string) (d : Z) (ns ne : string)
    (ex : option ObjectId) (x : Appointment) :
  In x (candidates tza db p d ex) ->
  wellFormed ns ne ->
  wellFormed (startTime x) (endTime x) ->
  strictlyContains (startTime x) (endTime x) ns ne
  \/ strictlyContains ns ne (startTime x) (endTime x) ->
  checkConflict tza db p d ns ne ex = true.
Proof.
  intros Hin Hn He Hc. apply checkConflict_true_iff. exists x.
  split; [exact Hin|]. destruct Hc as [Hc|Hc]; str_order.
Qed.

(** C6. Identical intervals conflict: if a candidate has exactly the
    well-formed interval [[s, e)], [checkConflict p d s e] returns
    [true]. *)
Theorem identical_interval_conflicts
    (db : list Appointment) (p : string) (d : Z) (s e : string)
    (ex : option ObjectId) (x : Appointment) :
  In x (candidates tza db p d ex) ->
  startTime x = s -> endTime x = e ->
  wellFormed s e ->
  checkConflict tza db p d s e ex = true.
Proof.
  intros Hin <- <- Hw. apply checkConflict_true_iff. exists x.
  split; [exact Hin|]. str_order.
Qed.

Lemma intervalsOverlap_wellFormed (s1 e1 s2 e2 : string) :
  intervalsOverlap s1 e1 s2 e2 -> wellFormed s1 e1 /\ wellFormed s2 e2.
Proof.
  intros (t & [A B] & [C D]). unfold wellFormed.
  split; eapply StrOrdFacts.le_lt_trans; eauto.
Qed.

(** C7, as amended.  Self-update: when the stored appointments of the
    practitioner and day that are neither Cancelled nor No-Show have
    well-formed intervals and exactly one of them overlaps the proposed
    interval, [checkConflict] called with [excludeId] set to the
    identifier of that appointment returns [false]. *)
Theorem exclude_only_overlapping
    (db : list Appointment) (p : string) (d : Z) (ns ne : string)
    (x : Appointment) :
  (forall y, In y db -> isCandidate tza p d None y ->
             wellFormed (startTime y) (endTime y)) ->
  onlyOverlapping tza db p d ns ne x ->
  checkConflict tza db p d ns ne (Some (_id x)) = false.
Proof.
  intros Hwf (_ & _ & Hov & Huniq).
  destruct (intervalsOverlap_wellFormed _ _ _ _ Hov) as [Hn _].
  apply checkConflict_false_iff. intros y Hy.
  apply candidates_exclude_incl in Hy as [Hy Hid].
  apply In_candidates in Hy as [Hy Hc].
  destruct (overlapTest ns ne (startTime y) (endTime y)) eqn:E; [|reflexivity].
  exfalso. apply Hid.
  assert (Hyx : y = x); [|now rewrite Hyx].
  apply Huniq; [exact Hy|exact Hc|].
  apply overlaps_common_instant; [exact Hn|now apply Hwf|].
  apply overlapTest_overlaps; [exact Hn|now apply Hwf|exact E].
Qed.

(** C9. A zero-length proposal [[t, t)] whose instant lies in a
    candidate's interval, [existingStart <= t < existingEnd], is
    reported as a conflict. *)
Theorem zero_length_inside_conflicts
    (db : list Appointment) (p : string) (d : Z) (t : string)
    (ex : option ObjectId) (x : Appointment) :
  In x (candidates tza db p d ex) ->
  wellFormed (startTime x) (endTime x) ->
  (startTime x <= t)%js = true ->
  (t < endTime x)%js = true ->
  checkConflict tza db p d t t ex = true.
Proof.
  intros Hin Hw H1 H2. apply checkConflict_true_iff. exists x.
  split; [exact Hin|]. str_order.
Qed.

End ConflictDetector.

Section Scenario.

Variable tza : Z.

(** C8. Practitioner "Dr. A" has exactly one appointment, Scheduled,
    with interval [[14:00, 15:00)], on the day checked (2024-03-01 in
    the scenario).  Then [[14:30, 14:45)] conflicts,
    [[15:00, 15:30)] and [[13:00, 14:00)] do not, and
    [[13:30, 14:30)] conflicts. *)
Theorem scenario_dr_A
    (db : list Appointment) (x : Appointment) (day : Z) :
  In x db ->
  (forall y, In y db -> practitioner y = "Dr. A" -> y = x) ->
  practitioner x = "Dr. A" ->
  status x = "Scheduled" ->
  startTime x = "14:00" -> endTime x = "15:00" ->
  inDayWindow tza day (date x) ->
  checkConflict tza db "Dr. A" day "14:30" "14:45" None = true
  /\ checkConflict tza db "Dr. A" day "15:00" "15:30" None = false
  /\ checkConflict tza db "Dr. A" day "13:00" "14:00" None = false
  /\ checkConflict tza db "Dr. A" day "13:30" "14:30" None = true.
Proof.
  intros Hin Huniq Hp Hst Hs He Hw.
  assert (Hx : In x (candidates tza db "Dr. A" day None)).
  { apply In_candidates. split; [exact Hin|].
    split; [exact Hp|]. split; [exact Hw|]. split.
    - unfold isCancelled. rewrite Hst. intros [H|H]; discriminate H.
    - intros e [=]. }
  assert (Hall : forall y, In y (candidates tza db "Dr. A" day None) -> y = x).
  { intros y Hy. apply In_candidates in Hy as (Hy & Hpy & _). auto. }
  repeat split.
  - apply checkConflict_true_iff. exists x. split; [exact Hx|].
    rewrite Hs, He. reflexivity.
  - apply checkConflict_false_iff. intros y Hy.
    rewrite (Hall y Hy), Hs, He. reflexivity.
  - apply checkConflict_false_iff. intros y Hy.
    rewrite (Hall y Hy), Hs, He. reflexivity.
  - apply checkConflict_true_iff. exists x. split; [exact Hx|].
    rewrite Hs, He. reflexivity.
Qed.

End Scenario.

(** ** Patient creation *)

Section CreatePatient.

Variable emailMatch : string -> bool.
Variable newId : ObjectId.
Variable now : Z.

Lemma addStatusCode_truthy (e : JsError) :
  truthyStatus (addStatusCode e) = true.
Proof.
  unfold addStatusCode. destruct (truthyStatus e) eqn:E; simpl; auto.
Qed.

Lemma addStatusCode_default (e : JsError) :
  truthyStatus e = false -> statusCode (addStatusCode e) = Some 500.
Proof. unfold addStatusCode. now intros ->. Qed.

Lemma addStatusCode_keep (e : JsError) :
  truthyStatus e = true -> addStatusCode e = e.
Proof. unfold addStatusCode. now intros ->. Qed.

Lemma find_hasIdNumber_some (v : string) (store : list Patient) :
  (exists p, In p store /\ idNumber p = v) ->
  exists q, List.find (hasIdNumber v) store = Some q.
Proof.
  intros (p & Hin & Hp).
  destruct (List.find (hasIdNumber v) store) as [q|] eqn:E; [eauto|].
  exfalso. pose proof (find_none _ _ E p Hin) as H.
  unfold hasIdNumber in H. rewrite Hp, String.eqb_refl in H. discriminate.
Qed.

Lemma find_hasIdNumber_none (v : string) (store : list Patient) :
  (forall p, In p store -> idNumber p <> v) ->
  List.find (hasIdNumber v) store = None
  /\ existsb (hasIdNumber v) store = false.
Proof.
  intros H. split.
  - destruct (List.find (hasIdNumber v) store) as [q|] eqn:E; [|reflexivity].
    apply find_some in E as [Hin Hq]. unfold hasIdNumber in Hq.
    apply String.eqb_eq in Hq. now elim (H q Hin).
  - destruct (existsb (hasIdNumber v) store) eqn:E; [|reflexivity].
    apply existsb_exists in E as (q & Hin & Hq). unfold hasIdNumber in Hq.
    apply String.eqb_eq in Hq. now elim (H q Hin).
Qed.

(** Valid data carries an identity number. *)
Lemma validate_nil_idNumber (pd : PatientData) :
  validate emailMatch pd = [] ->
  exists v, d_idNumber pd = Some v /\ idNumber (document newId now pd) = v.
Proof.
  unfold validate. intros H.
  apply app_eq_nil in H as [_ H]. apply app_eq_nil in H as [_ H].
  apply app_eq_nil in H as [_ H]. apply app_eq_nil in H as [H _].
  destruct (d_idNumber pd) as [v|] eqn:E; [|discriminate].
  exists v. simpl. now rewrite E.
Qed.

(** Every path of [createPatient] that throws has been through the
    [catch] block and leaves the collection as it was. *)
Lemma createPatient_throws (pd : PatientData) (store store' : list Patient)
    (e : JsError) :
  createPatient emailMatch newId now pd store = (Throw e, store') ->
  store' = store /\ exists e0, e = addStatusCode e0.
Proof.
  unfold createPatient, StoreM.tryCatch, StoreM.bind, StoreM.throw,
    StoreM.ret, findOne, create.
  destruct (d_idNumber pd) as [v|].
  - destruct (List.find (hasIdNumber v) store); simpl.
    + intros [= <- <-]. eauto.
    + destruct (validate emailMatch pd).
      * destruct (existsb _ store); intros [= <- <-] || intros [=]. eauto.
      * intros [= <- <-]. eauto.
  - simpl. destruct (validate emailMatch pd).
    + destruct (existsb _ store); intros [= <- <-] || intros [=]. eauto.
    + intros [= <- <-]. eauto.
Qed.

(** C10, as amended.  When a patient with the given [idNumber] is
    stored, [createPatient] throws the error with message
    ['Patient with this ID number already exists'] and [statusCode]
    400 and the collection is unchanged.  When none is stored and the
    data passes the validators of the schema, the new patient is
    appended to the collection and returned; when none is stored and a
    validator fails, a [ValidationError] is thrown with [statusCode]
    500 and nothing is created.  Every error that leaves
    [createPatient] carries a truthy [statusCode]: the catch block
    sets 500 on an error that has none and keeps the one attached. *)
Theorem createPatient_spec (pd : PatientData) (store : list Patient) :
  ((exists p, In p store /\ Some (idNumber p) = d_idNumber pd) ->
   createPatient emailMatch newId now pd store
   = (Throw {| name := "Error";
               message := "Patient with this ID number already exists";
               statusCode := Some 400 |}, store))
  /\ ((forall p, In p store -> Some (idNumber p) <> d_idNumber pd) ->
      validate emailMatch pd = [] ->
      createPatient emailMatch newId now pd store
      = (Ok (document newId now pd), (store ++ [document newId now pd])%list))
  /\ ((forall p, In p store -> Some (idNumber p) <> d_idNumber pd) ->
      validate emailMatch pd <> [] ->
      exists e, createPatient emailMatch newId now pd store = (Throw e, store)
                /\ name e = "ValidationError" /\ statusCode e = Some 500)
  /\ (forall e store',
        createPatient emailMatch newId now pd store = (Throw e, store') ->
        truthyStatus e = true /\ store' = store)
  /\ (forall e0, truthyStatus e0 = false ->
                 statusCode (addStatusCode e0) = Some 500)
  /\ (forall e0, truthyStatus e0 = true -> addStatusCode e0 = e0).
Proof.
  split; [|split; [|split; [|split; [|split]]]].
  - intros (p & Hin & Hp).
    destruct (d_idNumber pd) as [v|] eqn:E; [|discriminate].
    injection Hp as Hp.
    destruct (find_hasIdNumber_some v store) as [q Hq]; [eauto|].
    unfold createPatient, StoreM.tryCatch, StoreM.bind, StoreM.throw, findOne.
    rewrite E, Hq. reflexivity.
  - intros Hnone Hval.
    destruct (validate_nil_idNumber pd Hval) as (v & E & Hv).
    destruct (find_hasIdNumber_none v store) as [Hf Hex].
    { intros p Hin Hp. apply (Hnone p Hin). now rewrite E, Hp. }
    unfold createPatient, StoreM.tryCatch, StoreM.bind, StoreM.ret,
      findOne, create.
    rewrite E, Hf. simpl. rewrite Hval, E. simpl. rewrite Hex. reflexivity.
  - intros Hnone Hval.
    assert (Hf : fst (findOne (d_idNumber pd) store) = Ok None
                 /\ snd (findOne (d_idNumber pd) store) = store).
    { unfold findOne. destruct (d_idNumber pd) as [v|] eqn:E; [|auto].
      destruct (find_hasIdNumber_none v store) as [Hf _]; [|now rewrite Hf].
      intros p Hin Hp. apply (Hnone p Hin). now rewrite Hp. }
    unfold createPatient, StoreM.tryCatch, StoreM.bind, StoreM.throw, create.
    destruct (findOne (d_idNumber pd) store) as [r s]. simpl in Hf.
    destruct Hf as [-> ->]. simpl.
    destruct (validate emailMatch pd) as [|err errs]; [congruence|].
    eexists. split; [reflexivity|]. split; reflexivity.
  - intros e store' H.
    apply createPatient_throws in H as (-> & e0 & ->).
    split; [apply addStatusCode_truthy | reflexivity].
  - apply addStatusCode_default.
  - apply addStatusCode_keep.
Qed.

End CreatePatient.

(** ** The theorems on the sample clinic *)

Import Examples.

Lemma candidates_clinic_drA :
  candidates santiago clinic "Dr. A" march1 None = [drA_09_10; drA_14_15].
Proof. reflexivity. Defined.

Lemma candidates_clinic_drB :
  candidates santiago clinic "Dr. B" march1 None = [drB_09_11].
Proof. reflexivity. Defined.

Lemma invariant_clinic_drA : nonOverlapInvariant santiago clinic "Dr. A" march1.
Proof.
  apply nonOverlapInvariant_candidates. rewrite candidates_clinic_drA. split.
  - intros a [<-|[<-|[]]]; reflexivity.
  - simpl. split; [intros b [<-|[]]; reflexivity|].
    split; [intros b []|exact I].
Defined.

(** C1 on the sample clinic: Dr. A is free from 10:00 to 11:00 on
    March 1, and booking the slot keeps the invariant. *)
Lemma checkConflict_false_safe_to_book_witness :
  nonOverlapInvariant santiago clinic "Dr. A" march1
  /\ wellFormed "10:00" "11:00"
  /\ checkConflict santiago clinic "Dr. A" march1 "10:00" "11:00" None = false
  /\ (forall x, In x clinic -> isCandidate santiago "Dr. A" march1 None x ->
                overlaps "10:00" "11:00" (startTime x) (endTime x) = false)
  /\ nonOverlapInvariant santiago (insertAppointment clinic proposed)
       "Dr. A" march1.
Proof.
  split; [exact invariant_clinic_drA|].
  split; [reflexivity|]. split; [reflexivity|].
  exact (checkConflict_false_safe_to_book santiago clinic "Dr. A" march1
           "10:00" "11:00" proposed invariant_clinic_drA
           eq_refl eq_refl eq_refl eq_refl).
Defined.

(** C3 on the sample clinic: the No-Show appointment of Dr. A from 09:30
    to 10:30 does not block the slot from 10:00 to 10:30. *)
Lemma cancelled_never_conflicts_witness :
  isCancelled drA_noshow
  /\ ~ In drA_noshow (candidates santiago clinic "Dr. A" march1 None)
  /\ checkConflict santiago clinic "Dr. A" march1 "10:00" "10:30" None
     = checkConflict santiago
         [drB_09_11; drA_09_10; drA_14_15; drA_next_day]
         "Dr. A" march1 "10:00" "10:30" None.
Proof.
  assert (H : isCancelled drA_noshow) by (right; reflexivity).
  split; [exact H|].
  exact (cancelled_never_conflicts santiago [drB_09_11; drA_09_10]
           [drA_14_15; drA_next_day] drA_noshow "Dr. A" march1
           "10:00" "10:30" None H).
Defined.

(** C4 on the sample clinic: Dr. A is booked from 09:00 to 10:00 and
    from 14:00 to 15:00; the slot from 10:00 to 14:00 touches both and
    is free. *)
Lemma back_to_back_no_conflict_witness :
  (forall x, In x (candidates santiago clinic "Dr. A" march1 None) ->
             backToBack "10:00" "14:00" (startTime x) (endTime x))
  /\ checkConflict santiago clinic "Dr. A" march1 "10:00" "14:00" None = false.
Proof.
  assert (H : forall x, In x (candidates santiago clinic "Dr. A" march1 None) ->
                        backToBack "10:00" "14:00" (startTime x) (endTime x)).
  { rewrite candidates_clinic_drA. intros x [<-|[<-|[]]].
    - split; [reflexivity|]. split; [reflexivity|]. left. reflexivity.
    - split; [reflexivity|]. split; [reflexivity|]. right. reflexivity. }
  split; [exact H|].
  exact (back_to_back_no_conflict santiago clinic "Dr. A" march1
           "10:00" "14:00" None H).
Defined.

Lemma drB_candidate :
  In drB_09_11 (candidates santiago clinic "Dr. B" march1 None).
Proof. rewrite candidates_clinic_drB. left. reflexivity. Defined.

Lemma drA_09_10_candidate :
  In drA_09_10 (candidates santiago clinic "Dr. A" march1 None).
Proof. rewrite candidates_clinic_drA. left. reflexivity. Defined.

(** C5 on the sample clinic: Dr. B's appointment from 09:00 to 11:00
    contains the proposal from 09:30 to 10:30. *)
Lemma containment_conflicts_witness :
  In drB_09_11 (candidates santiago clinic "Dr. B" march1 None)
  /\ wellFormed "09:30" "10:30"
  /\ strictlyContains "09:00" "11:00" "09:30" "10:30"
  /\ checkConflict santiago clinic "Dr. B" march1 "09:30" "10:30" None = true.
Proof.
  assert (H : strictlyContains "09:00" "11:00" "09:30" "10:30").
  { split; [reflexivity|]. split; [reflexivity|]. left. reflexivity. }
  split; [exact drB_candidate|]. split; [reflexivity|]. split; [exact H|].
  exact (containment_conflicts santiago clinic "Dr. B" march1
           "09:30" "10:30" None drB_09_11 drB_candidate
           eq_refl eq_refl (or_introl H)).
Defined.

(** C6 on the sample clinic: proposing Dr. A's stored interval from
    09:00 to 10:00 again. *)
Lemma identical_interval_conflicts_witness :
  In drA_09_10 (candidates santiago clinic "Dr. A" march1 None)
  /\ wellFormed "09:00" "10:00"
  /\ checkConflict santiago clinic "Dr. A" march1 "09:00" "10:00" None = true.
Proof.
  split; [exact drA_09_10_candidate|]. split; [reflexivity|].
  exact (identical_interval_conflicts santiago clinic "Dr. A" march1
           "09:00" "10:00" None drA_09_10 drA_09_10_candidate
           eq_refl eq_refl eq_refl).
Defined.

Lemma not_candidate (tza : Z) (p : string) (d : Z) (ex : option ObjectId)
    (a : Appointment) :
  matches (buildQuery tza p d ex) a = false -> ~ isCandidate tza p d ex a.
Proof. intros H C. apply matches_iff in C. congruence. Defined.

Lemma is_candidate (tza : Z) (p : string) (d : Z) (ex : option ObjectId)
    (a : Appointment) :
  matches (buildQuery tza p d ex) a = true -> isCandidate tza p d ex a.
Proof. apply matches_iff. Defined.

Lemma no_instant (s1 e1 s2 e2 : string) :
  wellFormed s1 e1 -> wellFormed s2 e2 -> overlaps s1 e1 s2 e2 = false ->
  ~ intervalsOverlap s1 e1 s2 e2.
Proof.
  intros H1 H2 H C. apply (overlaps_common_instant s1 e1 s2 e2 H1 H2) in C.
  congruence.
Defined.

Lemma clinic_wellFormed :
  forall y, In y clinic -> isCandidate santiago "Dr. A" march1 None y ->
            wellFormed (startTime y) (endTime y).
Proof.
  intros y [<-|[<-|[<-|[<-|[<-|[]]]]]] _; reflexivity.
Defined.

Lemma drA_09_10_only_overlapping :
  onlyOverlapping santiago clinic "Dr. A" march1 "09:15" "10:15" drA_09_10.
Proof.
  unfold onlyOverlapping.
  split; [right; left; reflexivity|].
  split; [apply is_candidate; reflexivity|].
  split.
  - exists "09:15". repeat split; reflexivity.
  - intros y [<-|[<-|[<-|[<-|[<-|[]]]]]] Hc Ho.
    + now elim (not_candidate santiago "Dr. A" march1 None drB_09_11 eq_refl).
    + reflexivity.
    + now elim (not_candidate santiago "Dr. A" march1 None drA_noshow eq_refl).
    + now elim (no_instant "09:15" "10:15" "14:00" "15:00"
                  eq_refl eq_refl eq_refl).
    + now elim (not_candidate santiago "Dr. A" march1 None drA_next_day
                  eq_refl).
Defined.

(** C7 as first stated fails when a stored interval is not well-formed.
    Dr. A has the appointment from 09:00 to 10:00 and one with the empty
    interval from 09:30 to 09:30; the proposal from 09:30 to 10:30
    overlaps the first only (the second holds no instant), yet with the
    first excluded [checkConflict] still answers [true]: the empty
    interval lies within the proposal. *)
Lemma exclude_only_overlapping_counterexample :
  onlyOverlapping santiago Register.flawedClinic "Dr. A" march1
    "09:30" "10:30" drA_09_10
  /\ checkConflict santiago Register.flawedClinic "Dr. A" march1
       "09:30" "10:30" (Some (_id drA_09_10)) = true.
Proof.
  split; [|reflexivity]. unfold onlyOverlapping.
  split; [left; reflexivity|].
  split; [apply is_candidate; reflexivity|].
  split.
  - exists "09:30". repeat split; reflexivity.
  - intros y [<-|[<-|[]]] Hc Ho; [reflexivity|].
    destruct (intervalsOverlap_wellFormed _ _ _ _ Ho) as [_ Hw].
    discriminate Hw.
Qed.

(** C7, as amended, on the sample clinic: moving Dr. A's appointment of
    09:00 to 09:15 overlaps the stored appointment only, and does not
    conflict once its identifier is excluded. *)
Lemma exclude_only_overlapping_witness :
  (forall y, In y clinic -> isCandidate santiago "Dr. A" march1 None y ->
             wellFormed (startTime y) (endTime y))
  /\ onlyOverlapping santiago clinic "Dr. A" march1 "09:15" "10:15" drA_09_10
  /\ checkConflict santiago clinic "Dr. A" march1 "09:15" "10:15" None = true
  /\ checkConflict santiago clinic "Dr. A" march1 "09:15" "10:15"
       (Some (_id drA_09_10)) = false.
Proof.
  split; [exact clinic_wellFormed|].
  split; [exact drA_09_10_only_overlapping|]. split; [reflexivity|].
  exact (exclude_only_overlapping santiago clinic "Dr. A" march1
           "09:15" "10:15" drA_09_10 clinic_wellFormed
           drA_09_10_only_overlapping).
Defined.

(** C8, the scenario itself: on 2024-03-01 Dr. A has the one Scheduled
    appointment from 14:00 to 15:00. *)
Lemma scenario_dr_A_witness :
  checkConflict santiago scenarioClinic "Dr. A" march1 "14:30" "14:45" None = true
  /\ checkConflict santiago scenarioClinic "Dr. A" march1 "15:00" "15:30" None = false
  /\ checkConflict santiago scenarioClinic "Dr. A" march1 "13:00" "14:00" None = false
  /\ checkConflict santiago scenarioClinic "Dr. A" march1 "13:30" "14:30" None = true.
Proof.
  apply (scenario_dr_A santiago scenarioClinic drA_14_15 march1).
  - right. left. reflexivity.
  - intros y [<-|[<-|[]]]; [intros H; discriminate H | reflexivity].
  - reflexivity.
  - reflexivity.
  - reflexivity.
  - reflexivity.
  - apply inDayWindow_self.
Defined.

(** C9 on the sample clinic: the instant 09:30, proposed as the empty
    interval from 09:30 to 09:30, falls in Dr. A's appointment from
    09:00 to 10:00. *)
Lemma zero_length_inside_conflicts_witness :
  In drA_09_10 (candidates santiago clinic "Dr. A" march1 None)
  /\ wellFormed "09:00" "10:00"
  /\ ("09:00" <= "09:30")%js = true
  /\ ("09:30" < "10:00")%js = true
  /\ checkConflict santiago clinic "Dr. A" march1 "09:30" "09:30" None = true.
Proof.
  split; [exact drA_09_10_candidate|].
  split; [reflexivity|]. split; [reflexivity|]. split; [reflexivity|].
  exact (zero_length_inside_conflicts santiago clinic "Dr. A" march1
           "09:30" None drA_09_10 drA_09_10_candidate
           eq_refl eq_refl eq_refl).
Defined.

(** C2 on the sample clinic: Dr. A's appointment from 14:00 to 15:00 is
    a candidate that holds the start 14:30, so the check answers
    [true]; nobody is booked with "Dr. C", so the check answers
    [false]. *)
Lemma checkConflict_spec_witness :
  (In drA_14_15 clinic /\ isCandidate santiago "Dr. A" march1 None drA_14_15)
  /\ startInside "14:30" "14:00" "15:00"
  /\ checkConflict santiago clinic "Dr. A" march1 "14:30" "16:00" None = true
  /\ (forall x, In x clinic -> ~ isCandidate santiago "Dr. C" march1 None x)
  /\ checkConflict santiago clinic "Dr. C" march1 "14:30" "16:00" None = false.
Proof.
  pose proof (checkConflict_spec santiago clinic "Dr. A" march1
                "14:30" "16:00" None) as (Hmem & Htrue & _ & _).
  pose proof (checkConflict_spec santiago clinic "Dr. C" march1
                "14:30" "16:00" None) as (_ & _ & _ & Hempty).
  assert (Hc : In drA_14_15 (candidates santiago clinic "Dr. A" march1 None)).
  { rewrite candidates_clinic_drA. right. left. reflexivity. }
  assert (Hs : startInside "14:30" "14:00" "15:00") by (split; reflexivity).
  assert (Hnone : forall x, In x clinic ->
                            ~ isCandidate santiago "Dr. C" march1 None x).
  { intros x [<-|[<-|[<-|[<-|[<-|[]]]]]] (Hp & _); discriminate Hp. }
  split; [exact (proj1 (Hmem drA_14_15) Hc)|]. split; [exact Hs|].
  split.
  - apply (proj2 Htrue). exists drA_14_15.
    destruct (proj1 (Hmem drA_14_15) Hc) as [Hin Hcand].
    split; [exact Hin|]. split; [exact Hcand|]. left. exact Hs.
  - split; [exact Hnone|]. apply Hempty. exact Hnone.
Defined.

(** C10 as first stated fails on data that the schema rejects: no
    patient has the identity number, the first name is missing, and
    [createPatient] throws the validation error with [statusCode] 500
    instead of creating and returning a patient. *)
Lemma createPatient_rejected_data_counterexample :
  (forall p, In p patients -> Some (idNumber p) <> d_idNumber noFirstName)
  /\ createPatient anyEmail 11%N march1 noFirstName patients
     = (Throw {| name := "ValidationError";
                 message := "Patient validation failed: firstName: First name is required";
                 statusCode := Some 500 |}, patients)
  /\ ~ (exists p store',
          createPatient anyEmail 11%N march1 noFirstName patients
          = (Ok p, store')).
Proof.
  split; [|split].
  - intros p [<-|[]] H. discriminate H.
  - reflexivity.
  - intros (p & store' & H). discriminate H.
Qed.

(** C10, as amended, on the sample collection: the identity number of
    [ana] is refused with 400, and [luis] is created. *)
Lemma createPatient_spec_witness :
  (exists p, In p patients /\ Some (idNumber p) = d_idNumber anaAgain)
  /\ createPatient anyEmail 11%N march1 anaAgain patients
     = (Throw {| name := "Error";
                 message := "Patient with this ID number already exists";
                 statusCode := Some 400 |}, patients)
  /\ (forall p, In p patients -> Some (idNumber p) <> d_idNumber luis)
  /\ validate anyEmail luis = []
  /\ createPatient anyEmail 11%N march1 luis patients
     = (Ok (document 11%N march1 luis),
        (patients ++ [document 11%N march1 luis])%list)
  /\ validate anyEmail noFirstName <> []
  /\ exists e, createPatient anyEmail 11%N march1 noFirstName patients
               = (Throw e, patients)
               /\ name e = "ValidationError" /\ statusCode e = Some 500.
Proof.
  assert (Hdup : exists p, In p patients
                           /\ Some (idNumber p) = d_idNumber anaAgain).
  { exists ana. split; [left|]; reflexivity. }
  assert (Hnew : forall p, In p patients -> Some (idNumber p) <> d_idNumber luis).
  { intros p [<-|[]] H. discriminate H. }
  assert (Hbad : validate anyEmail noFirstName <> []).
  { intros H. discriminate H. }
  pose proof (createPatient_spec anyEmail 11%N march1 anaAgain patients)
    as (H400 & _).
  pose proof (createPatient_spec anyEmail 11%N march1 luis patients)
    as (_ & Hok & _).
  pose proof (createPatient_spec anyEmail 11%N march1 noFirstName patients)
    as (_ & _ & H500 & _).
  split; [exact Hdup|]. split; [exact (H400 Hdup)|].
  split; [exact Hnew|]. split; [reflexivity|].
  split; [exact (Hok Hnew eq_refl)|].
  split; [exact Hbad|]. exact (H500 Hnew Hbad).
Defined.

(** ** More on the conflict detector *)

Lemma filter_filter {A} (f g : A -> bool) (l : list A) :
  filter f (filter g l) = filter (fun x => g x && f x) l.
Proof.
  induction l as [|a l IH]; simpl; [reflexivity|].
  destruct (g a); simpl; [destruct (f a)|]; now rewrite IH.
Qed.

Section DetectorFrame.

Variable tza : Z.

Lemma dayWindow_same (d t : Z) :
  inDayWindow tza d t ->
  startOfDay tza t = startOfDay tza d /\ endOfDay tza t = endOfDay tza d.
Proof.
  intro H. apply inDayWindow_iff in H.
  unfold startOfDay, endOfDay, JsDate.setHours. now rewrite H.
Qed.

Lemma candidates_same_day (db : list Appointment) (p : string) (d t : Z)
    (ex : option ObjectId) :
  inDayWindow tza d t ->
  candidates tza db p t ex = candidates tza db p d ex.
Proof.
  intro H. destruct (dayWindow_same d t H) as [Hs He].
  unfold candidates, buildQuery. now rewrite Hs, He.
Qed.

(** X2.  The date argument counts by its local calendar day only: two dates
    of one day get the same answer. *)
Theorem checkConflict_same_day
    (db : list Appointment) (p : string) (d t : Z) (ns ne : string)
    (ex : option ObjectId) :
  inDayWindow tza d t ->
  checkConflict tza db p t ns ne ex = checkConflict tza db p d ns ne ex.
Proof.
  intro H. unfold checkConflict. now rewrite (candidates_same_day db p d t ex H).
Qed.

(** X3.  The answer on a store is the disjunction of the answers on its
    parts: more appointments never turn a conflict into a free slot. *)
Theorem checkConflict_app
    (db1 db2 : list Appointment) (p : string) (d : Z) (ns ne : string)
    (ex : option ObjectId) :
  checkConflict tza (db1 ++ db2) p d ns ne ex
  = checkConflict tza db1 p d ns ne ex || checkConflict tza db2 p d ns ne ex.
Proof. unfold checkConflict. now rewrite candidates_app, scan_app. Qed.

(** X4.  An appointment of another practitioner, or of another day, never
    changes the answer, whatever its interval and its room. *)
Theorem other_practitioner_or_day_ignored
    (db1 db2 : list Appointment) (a : Appointment) (p : string) (d : Z)
    (ns ne : string) (ex : option ObjectId) :
  practitioner a <> p \/ ~ inDayWindow tza d (date a) ->
  checkConflict tza (db1 ++ a :: db2) p d ns ne ex
  = checkConflict tza (db1 ++ db2) p d ns ne ex.
Proof.
  intros H.
  assert (Hm : matches (buildQuery tza p d ex) a = false).
  { destruct (matches (buildQuery tza p d ex) a) eqn:E; [|reflexivity].
    apply matches_iff in E. destruct E as (Hp & Hw & _). tauto. }
  unfold checkConflict. now rewrite !candidates_app, candidates_cons, Hm.
Qed.

Lemma candidates_withoutId (db : list Appointment) (p : string) (d : Z)
    (e : ObjectId) :
  candidates tza db p d (Some e) = candidates tza (withoutId e db) p d None.
Proof.
  unfold candidates, find, withoutId. rewrite filter_filter.
  apply filter_ext. intros a. unfold matches, buildQuery. simpl.
  rewrite andb_true_r.
  destruct (String.eqb (practitioner a) p && (startOfDay tza d <=? date a)
            && (date a <=? endOfDay tza d)
            && nin (status a) ["Cancelled"; "No-Show"]%string);
    destruct (negb (N.eqb (_id a) e)); reflexivity.
Qed.

(** X5.  Checking with [excludeId] is checking, without it, the store from
    which the documents of that identifier are removed. *)
Theorem checkConflict_exclude_is_removal
    (db : list Appointment) (p : string) (d : Z) (ns ne : string)
    (e : ObjectId) :
  checkConflict tza db p d ns ne (Some e)
  = checkConflict tza (withoutId e db) p d ns ne None.
Proof. unfold checkConflict. now rewrite candidates_withoutId. Qed.

(** X6.  A zero-length proposal [[t, t)] conflicts exactly when [t] lies in
    the closed interval of a candidate: the end instant of a
    well-formed candidate counts, although a proper interval starting
    there does not conflict. *)
Theorem zero_length_conflict_iff
    (db : list Appointment) (p : string) (d : Z) (t : string)
    (ex : option ObjectId) :
  (forall x, In x (candidates tza db p d ex) ->
             wellFormed (startTime x) (endTime x)) ->
  (checkConflict tza db p d t t ex = true <->
   exists x, In x (candidates tza db p d ex)
             /\ (startTime x <= t)%js = true /\ (t <= endTime x)%js = true).
Proof.
  intros Hwf. rewrite checkConflict_true_iff.
  split; intros (x & Hin & H); exists x; (split; [exact Hin|]);
    specialize (Hwf x Hin).
  - split; str_order.
  - destruct H as [H1 H2]. str_order.
Qed.

(** X7.  On well-formed intervals the overlap test is symmetric: the
    proposal conflicts with the stored interval exactly when the stored
    one, proposed, would conflict with it. *)
Theorem overlapTest_symmetric (ns ne es ee : string) :
  wellFormed ns ne -> wellFormed es ee ->
  overlapTest ns ne es ee = overlapTest es ee ns ne.
Proof. intros Hn He. str_order. Qed.

Lemma insert_keeps_invariant
    (db : list Appointment) (a : Appointment) (p : string) (d : Z) :
  nonOverlapInvariant tza db p d ->
  wellFormed (startTime a) (endTime a) ->
  (matches (buildQuery tza p d None) a = true ->
   forall x, In x (candidates tza db p d None) ->
             overlapTest (startTime a) (endTime a) (startTime x) (endTime x)
             = false) ->
  nonOverlapInvariant tza (insertAppointment db a) p d.
Proof.
  intros Hinv Ha Hno.
  apply nonOverlapInvariant_candidates in Hinv as [Hwf Hpd].
  apply nonOverlapInvariant_candidates. unfold insertAppointment.
  rewrite candidates_app, candidates_cons.
  destruct (matches (buildQuery tza p d None) a).
  - split.
    + intros x Hx. apply in_app_or in Hx as [Hx|[<-|[]]]; auto.
    + apply pairwiseDisjoint_snoc; [exact Hpd|].
      intros b Hb. unfold appOverlaps. rewrite overlaps_sym.
      apply overlapTest_false_disjoint. auto.
  - change (candidates tza [] p d None) with (@nil Appointment).
    rewrite app_nil_r. split; assumption.
Qed.

(** X1.  Booking after a negative check keeps the invariant for every
    practitioner and every day, not only for the ones checked; the
    invariant is the one stated on the stored appointments. *)
Theorem safe_booking_everywhere (db : list Appointment) (a : Appointment) :
  nonOverlapEverywhere tza db ->
  wellFormed (startTime a) (endTime a) ->
  checkConflict tza db (practitioner a) (date a) (startTime a) (endTime a) None
  = false ->
  nonOverlapEverywhere tza (insertAppointment db a).
Proof.
  intros Hall Ha Hc p d. apply insert_keeps_invariant; auto.
  intros Hm x Hx. apply matches_iff in Hm as (Hp & Hw & _).
  rewrite checkConflict_false_iff in Hc. apply Hc.
  rewrite Hp, (candidates_same_day db p d (date a) None Hw). exact Hx.
Qed.

End DetectorFrame.

(** ** Looking patients up by identifier *)

Lemma find_hasId_some (i : ObjectId) (store : list Patient) (p : Patient) :
  List.find (hasId i) store = Some p -> In p store /\ p_id p = i.
Proof.
  intro H. apply find_some in H as [Hin Hp]. split; [exact Hin|].
  now apply N.eqb_eq.
Qed.

Lemma find_hasId_none (i : ObjectId) (store : list Patient) :
  (forall p, In p store -> p_id p <> i) <-> List.find (hasId i) store = None.
Proof.
  split.
  - intro H. destruct (List.find (hasId i) store) as [p|] eqn:E; [|reflexivity].
    apply find_hasId_some in E as [Hin Hp]. now elim (H p Hin).
  - intros H p Hin Hp. pose proof (find_none _ _ H p Hin) as F.
    unfold hasId in F. rewrite Hp, N.eqb_refl in F. discriminate.
Qed.

(** The first document of an identifier, split off the collection. *)
Lemma find_hasId_split (i : ObjectId) (store : list Patient) (p : Patient) :
  List.find (hasId i) store = Some p ->
  exists l1 l2, store = (l1 ++ p :: l2)%list
                /\ (forall q, In q l1 -> p_id q <> i) /\ p_id p = i.
Proof.
  induction store as [|a store IH]; simpl; [discriminate|].
  destruct (hasId i a) eqn:E.
  - intros [= ->]. exists [], store. split; [reflexivity|].
    split; [intros q []|]. now apply N.eqb_eq.
  - intros H. destruct (IH H) as (l1 & l2 & -> & Hl1 & Hp).
    exists (a :: l1), l2. split; [reflexivity|]. split; [|exact Hp].
    intros q [<-|Hq]; [|auto]. intro C. unfold hasId in E.
    rewrite C, N.eqb_refl in E. discriminate.
Qed.

Lemma uniqueIds_find (i : ObjectId) (store : list Patient) (p : Patient) :
  uniqueIds store -> In p store -> p_id p = i ->
  List.find (hasId i) store = Some p.
Proof.
  unfold uniqueIds. induction store as [|a store IH]; simpl; [intros _ []|].
  intros Hnd Hin Hp. inversion Hnd as [|x l Hnot Hnd']; subst.
  destruct Hin as [->|Hin].
  - unfold hasId. now rewrite N.eqb_refl.
  - destruct (hasId (p_id p) a) eqn:E; [|auto].
    exfalso. apply Hnot. apply N.eqb_eq in E. rewrite E.
    now apply in_map.
Qed.

Section GetPatient.

(** X10.  [getPatientById] answers with a stored patient of the identifier,
    or throws ['Patient not found'] with [statusCode] 404 when no
    stored patient has it; it never changes the collection. *)
Theorem getPatientById_spec (i : ObjectId) (store : list Patient) :
  ((exists p, In p store /\ p_id p = i) ->
   exists p, In p store /\ p_id p = i
             /\ getPatientById i store = (Ok p, store))
  /\ ((forall p, In p store -> p_id p <> i) ->
      getPatientById i store
      = (Throw {| name := "Error"; message := "Patient not found";
                  statusCode := Some 404 |}, store))
  /\ (forall r store', getPatientById i store = (r, store') -> store' = store).
Proof.
  unfold getPatientById, StoreM.tryCatch, StoreM.bind, findById,
    StoreM.throw, StoreM.ret.
  split; [|split].
  - intros (p & Hin & Hp).
    destruct (List.find (hasId i) store) as [q|] eqn:E.
    + exists q. destruct (find_hasId_some i store q E). auto.
    + now elim (proj2 (find_hasId_none i store) E p Hin).
  - intro H. now rewrite (proj1 (find_hasId_none i store) H).
  - intros r store'. destruct (List.find (hasId i) store); now intros [= _ <-].
Qed.

End GetPatient.

(** ** Creating patients: what the collection keeps *)

Lemma existsb_hasIdNumber_false (v : string) (store : list Patient) :
  existsb (hasIdNumber v) store = false ->
  forall q, In q store -> idNumber q <> v.
Proof.
  intros H q Hin Hq.
  assert (E : existsb (hasIdNumber v) store = true).
  { apply existsb_exists. exists q. split; [exact Hin|].
    unfold hasIdNumber. rewrite Hq. apply String.eqb_refl. }
  congruence.
Qed.

Lemma requiredString_nil (path msg : string) (v : option string) :
  requiredString path msg v = [] -> exists s, v = Some s /\ s <> "".
Proof.
  destruct v as [s|]; simpl; [|discriminate].
  destruct (String.eqb_spec s ""); [discriminate|]. eauto.
Qed.

Lemma enumCheck_nil (path : string) (l : list string) (v : option string) :
  enumCheck path l v = [] -> forall s, v = Some s -> inEnum s l = true.
Proof.
  intros H s ->. simpl in H. now destruct (inEnum s l).
Qed.

Lemma firstFailure_nil (a b : list (string * string)) :
  firstFailure a b = [] -> a = [] /\ b = [].
Proof. destruct a; simpl; [auto|discriminate]. Qed.

Lemma matchCheck_nil (emailMatch : string -> bool) (v : option string) :
  matchCheck emailMatch v = [] ->
  forall e, v = Some e -> e <> "" -> emailMatch e = true.
Proof.
  intros H e -> Hne. simpl in H.
  destruct (String.eqb_spec e ""); [contradiction|].
  now destruct (emailMatch e).
Qed.

Section CreateInvariants.

Variable emailMatch : string -> bool.

(** Data the validators accept become a document the schema accepts. *)
Lemma validate_nil_validDocument (newId : ObjectId) (now : Z) (pd : PatientData) :
  validate emailMatch pd = [] ->
  validDocument emailMatch (document newId now pd).
Proof.
  unfold validate. intros H.
  apply app_eq_nil in H as [H7 H]. apply app_eq_nil in H as [H5 H].
  apply app_eq_nil in H as [_ H]. apply app_eq_nil in H as [H3 H].
  apply app_eq_nil in H as [H2 H]. apply app_eq_nil in H as [H1 H].
  apply app_eq_nil in H as [H6 H8].
  apply firstFailure_nil in H5 as [H5 H5'].
  apply requiredString_nil in H1 as (s1 & E1 & N1).
  apply requiredString_nil in H2 as (s2 & E2 & N2).
  apply requiredString_nil in H3 as (s3 & E3 & N3).
  apply requiredString_nil in H5 as (s5 & E5 & N5).
  apply requiredString_nil in H7 as (s7 & E7 & N7).
  unfold validDocument, document. simpl. rewrite E1, E2, E3, E5, E7. simpl.
  repeat (split; [assumption|]).
  split; [exact (enumCheck_nil _ _ _ H5' s5 E5)|].
  split; [|exact (matchCheck_nil _ _ H6)].
  destruct (d_bloodType pd) as [b|] eqn:Eb; simpl; [|reflexivity].
  exact (enumCheck_nil _ _ _ H8 b eq_refl).
Qed.

Lemma createPatient_ok_inv (newId : ObjectId) (now : Z) (pd : PatientData)
    (store store' : list Patient) (p : Patient) :
  createPatient emailMatch newId now pd store = (Ok p, store') ->
  validate emailMatch pd = []
  /\ p = document newId now pd
  /\ store' = (store ++ [p])%list
  /\ d_idNumber pd = Some (idNumber p)
  /\ (forall q, In q store -> idNumber q <> idNumber p).
Proof.
  unfold createPatient, StoreM.tryCatch, StoreM.bind, StoreM.throw,
    StoreM.ret, findOne, create.
  destruct (d_idNumber pd) as [v|] eqn:Ev.
  - destruct (List.find (hasIdNumber v) store); simpl; [discriminate|].
    destruct (validate emailMatch pd) eqn:Hv; [|discriminate].
    destruct (existsb _ store) eqn:Hex; [discriminate|].
    intros [= <- <-]. simpl in *. rewrite Ev in *. simpl in *.
    repeat split; auto. now apply existsb_hasIdNumber_false.
  - simpl. destruct (validate emailMatch pd) eqn:Hv; [|discriminate].
    exfalso. unfold validate in Hv.
    apply app_eq_nil in Hv as [_ Hv]. apply app_eq_nil in Hv as [_ Hv].
    apply app_eq_nil in Hv as [_ Hv]. apply app_eq_nil in Hv as [Hv _].
    rewrite Ev in Hv. discriminate.
Qed.

(** X11.  Whatever [createPatient] answers, the collection it leaves keeps
    identity numbers pairwise distinct and documents valid for the
    schema; identifiers stay distinct when the new identifier is
    fresh. *)
Theorem createPatient_keeps_invariants
    (newId : ObjectId) (now : Z) (pd : PatientData)
    (store store' : list Patient) (r : Result Patient) :
  createPatient emailMatch newId now pd store = (r, store') ->
  (uniqueIdNumbers store -> uniqueIdNumbers store')
  /\ (Forall (validDocument emailMatch) store ->
      Forall (validDocument emailMatch) store')
  /\ ((forall q, In q store -> p_id q <> newId) ->
      uniqueIds store -> uniqueIds store').
Proof.
  intros H. destruct r as [p|e].
  - apply createPatient_ok_inv in H as (Hv & Hp & -> & _ & Hfresh).
    split; [|split].
    + unfold uniqueIdNumbers. rewrite map_app. simpl. intros Hnd.
      apply NoDup_app; [exact Hnd|repeat constructor; intros []|].
      intros x Hx [<-|[]]. apply in_map_iff in Hx as (q & Hq & Hin).
      now elim (Hfresh q Hin).
    + intros Hall. apply Forall_app. split; [exact Hall|].
      constructor; [|constructor]. subst p.
      now apply validate_nil_validDocument.
    + intros Hid. unfold uniqueIds. rewrite map_app. simpl. intros Hnd.
      apply NoDup_app; [exact Hnd|repeat constructor; intros []|].
      intros x Hx [<-|[]]. apply in_map_iff in Hx as (q & Hq & Hin).
      subst p. simpl in Hq. now elim (Hid q Hin).
  - apply createPatient_throws in H as (-> & _). auto.
Qed.

(** X12.  Round trip: a patient just created under a fresh identifier is the
    one [getPatientById] returns for that identifier. *)
Theorem create_then_get
    (newId : ObjectId) (now : Z) (pd : PatientData)
    (store store' : list Patient) (p : Patient) :
  (forall q, In q store -> p_id q <> newId) ->
  createPatient emailMatch newId now pd store = (Ok p, store') ->
  getPatientById newId store' = (Ok p, store').
Proof.
  intros Hfresh H.
  apply createPatient_ok_inv in H as (_ & Hp & -> & _).
  unfold getPatientById, StoreM.tryCatch, StoreM.bind, findById, StoreM.ret.
  assert (E : List.find (hasId newId) (store ++ [p]) = Some p).
  { clear -Hfresh Hp. induction store as [|a store IH]; simpl.
    - subst p. unfold hasId. simpl. now rewrite N.eqb_refl.
    - destruct (hasId newId a) eqn:Ea.
      + apply N.eqb_eq in Ea. elim (Hfresh a (or_introl eq_refl) Ea).
      + apply IH. intros q Hq. apply Hfresh. now right. }
  now rewrite E.
Qed.

(** X13.  A second creation with the identity number of a patient just
    created is refused with [statusCode] 400, and creates nothing. *)
Theorem create_twice_refused
    (newId newId' : ObjectId) (now now' : Z) (pd pd' : PatientData)
    (store store' : list Patient) (p : Patient) :
  createPatient emailMatch newId now pd store = (Ok p, store') ->
  d_idNumber pd' = d_idNumber pd ->
  createPatient emailMatch newId' now' pd' store'
  = (Throw {| name := "Error";
              message := "Patient with this ID number already exists";
              statusCode := Some 400 |}, store').
Proof.
  intros H Hsame.
  apply createPatient_ok_inv in H as (_ & _ & -> & Hid & _).
  destruct (find_hasIdNumber_some (idNumber p) (store ++ [p])) as [q Hq].
  { exists p. split; [apply in_or_app; right; now left | reflexivity]. }
  unfold createPatient, StoreM.tryCatch, StoreM.bind, StoreM.throw, findOne.
  rewrite Hsame, Hid, Hq. reflexivity.
Qed.

End CreateInvariants.

(** ** Updating and deactivating patients *)

Lemma updateFirst_split (sel : Patient -> bool) (f : Patient -> Patient)
    (l1 l2 : list Patient) (p : Patient) :
  (forall q, In q l1 -> sel q = false) -> sel p = true ->
  updateFirst sel f (l1 ++ p :: l2) = (l1 ++ f p :: l2)%list.
Proof.
  intros Hl1 Hp. induction l1 as [|a l1 IH]; simpl.
  - now rewrite Hp.
  - rewrite (Hl1 a (or_introl eq_refl)). f_equal. apply IH.
    intros q Hq. apply Hl1. now right.
Qed.

Lemma hasId_false (i : ObjectId) (q : Patient) :
  p_id q <> i -> hasId i q = false.
Proof. intro H. unfold hasId. now apply N.eqb_neq. Qed.

Lemma hasId_true (i : ObjectId) (q : Patient) :
  p_id q = i -> hasId i q = true.
Proof. intro H. unfold hasId. now apply N.eqb_eq. Qed.

(** In a collection with distinct identifiers, rewriting the first
    document of an identifier is rewriting the documents of that
    identifier. *)
Lemma updateFirst_map (i : ObjectId) (f : Patient -> Patient)
    (store : list Patient) :
  uniqueIds store ->
  updateFirst (hasId i) f store
  = map (fun q => if hasId i q then f q else q) store.
Proof.
  unfold uniqueIds. induction store as [|a store IH]; simpl; [reflexivity|].
  intros Hnd. inversion Hnd as [|x l Hnot Hnd']; subst.
  destruct (hasId i a) eqn:E.
  - f_equal. apply N.eqb_eq in E. symmetry.
    rewrite <- (map_id store) at 2. apply map_ext_in.
    intros q Hq. rewrite hasId_false; [reflexivity|].
    intro C. apply Hnot. rewrite E, <- C. now apply in_map.
  - f_equal. now apply IH.
Qed.

Lemma updateFirst_map_key {K} (key : Patient -> K) (sel : Patient -> bool)
    (f : Patient -> Patient) (store : list Patient) :
  (forall q, key (f q) = key q) ->
  map key (updateFirst sel f store) = map key store.
Proof.
  intros Hk. induction store as [|a store IH]; simpl; [reflexivity|].
  destruct (sel a); simpl; [now rewrite Hk | now rewrite IH].
Qed.

Lemma updateFirst_Forall (P : Patient -> Prop) (sel : Patient -> bool)
    (f : Patient -> Patient) (store : list Patient) :
  (forall q, P q -> P (f q)) ->
  Forall P store -> Forall P (updateFirst sel f store).
Proof.
  intros Hf. induction 1 as [|a store Ha Hs IH]; simpl; [constructor|].
  destruct (sel a); constructor; auto.
Qed.

Section Deactivate.

Variable emailMatch : string -> bool.
Variable now : Z.

Lemma deletePatient_run (i : ObjectId) (store : list Patient) :
  deletePatient emailMatch now i store
  = match List.find (hasId i) store with
    | None => (Throw notFoundError, store)
    | Some p =>
        (Ok {| success := true;
               dr_message := "Patient deactivated successfully";
               dr_patient := Some (applyUpdate now deactivate p) |},
         updateFirst (hasId i) (applyUpdate now deactivate) store)
    end.
Proof.
  unfold deletePatient, StoreM.tryCatch, StoreM.bind, findById,
    findByIdAndUpdate, StoreM.throw, StoreM.ret.
  destruct (List.find (hasId i) store) as [p|] eqn:E; [|reflexivity].
  simpl. rewrite E. unfold indexRefuses. simpl.
  now rewrite String.eqb_refl.
Qed.

(** X14.  [deletePatient] is a soft delete.  For an unknown identifier it
    throws ['Patient not found'] with [statusCode] 404 and changes
    nothing.  For a stored patient, active or not, it answers with
    success and the patient as stored from then on: [isActive] is
    [false], [updatedAt] is the time of the call, every other property
    is as before; the other documents are untouched and the patient
    can still be read by [getPatientById]. *)
Theorem deletePatient_spec (i : ObjectId) (store : list Patient) :
  ((forall p, In p store -> p_id p <> i) ->
   deletePatient emailMatch now i store
   = (Throw {| name := "Error"; message := "Patient not found";
               statusCode := Some 404 |}, store))
  /\ (forall p, uniqueIds store -> In p store -> p_id p = i ->
      let p' :=
        {| p_id := p_id p; firstName := firstName p; lastName := lastName p;
           idNumber := idNumber p; dateOfBirth := dateOfBirth p;
           gender := gender p; email := email p; phone := phone p;
           bloodType := bloodType p; occupation := occupation p;
           referredBy := referredBy p; notes := notes p;
           isActive := false;
           createdAt := createdAt p; updatedAt := now |} in
      let store' := map (fun q => if hasId i q then p' else q) store in
      deletePatient emailMatch now i store
      = (Ok {| success := true;
               dr_message := "Patient deactivated successfully";
               dr_patient := Some p' |}, store')
      /\ getPatientById i store' = (Ok p', store')).
Proof.
  split.
  - intro H. rewrite deletePatient_run.
    now rewrite (proj1 (find_hasId_none i store) H).
  - intros p Hu Hin Hp p' store'.
    assert (Hp' : applyUpdate now deactivate p = p').
    { destruct p. reflexivity. }
    assert (Hs : updateFirst (hasId i) (applyUpdate now deactivate) store
                 = store').
    { rewrite (updateFirst_map i _ store Hu). apply map_ext_in.
      intros q Hq. destruct (hasId i q) eqn:E; [|reflexivity].
      rewrite <- Hp'. f_equal. apply N.eqb_eq in E.
      pose proof (uniqueIds_find i store q Hu Hq E) as F1.
      pose proof (uniqueIds_find i store p Hu Hin Hp) as F2. congruence. }
    split.
    + rewrite deletePatient_run, (uniqueIds_find i store p Hu Hin Hp).
      now rewrite Hp', Hs.
    + unfold getPatientById, StoreM.tryCatch, StoreM.bind, findById,
        StoreM.ret.
      assert (F : List.find (hasId i) store' = Some p').
      { destruct (find_hasId_split i store p
                    (uniqueIds_find i store p Hu Hin Hp))
          as (l1 & l2 & E & Hl1 & _).
        rewrite <- Hs, E, updateFirst_split.
        - rewrite Hp'. clear -Hl1 Hp. induction l1 as [|a l1 IH]; simpl.
          + subst p'. unfold hasId. simpl. now rewrite Hp, N.eqb_refl.
          + rewrite hasId_false by (apply Hl1; now left).
            apply IH. intros q Hq. apply Hl1. now right.
        - intros q Hq. apply hasId_false. auto.
        - now apply hasId_true. }
      now rewrite F.
Qed.

(** X15.  Whatever [deletePatient] answers, no document is removed: the
    identifiers and the identity numbers of the collection are the same
    list as before, and documents valid for the schema stay valid. *)
Theorem deletePatient_removes_nothing
    (i : ObjectId)
    (store store' : list Patient) (r : Result DeleteResult) :
  deletePatient emailMatch now i store = (r, store') ->
  map p_id store' = map p_id store
  /\ map idNumber store' = map idNumber store
  /\ (Forall (validDocument emailMatch) store ->
      Forall (validDocument emailMatch) store').
Proof.
  rewrite deletePatient_run.
  destruct (List.find (hasId i) store) as [p|]; intros [= <- <-]; [|auto].
  split; [|split].
  - apply updateFirst_map_key. reflexivity.
  - apply updateFirst_map_key. reflexivity.
  - apply updateFirst_Forall. intros q Hq. exact Hq.
Qed.

(** X16.  Soft deletion does not free the identity number: creating a patient
    with the number of the deactivated one is still refused with
    [statusCode] 400. *)
Theorem delete_then_create_refused
    (i newId : ObjectId) (now' : Z)
    (store store' : list Patient) (r : DeleteResult) (p' : Patient)
    (pd : PatientData) :
  deletePatient emailMatch now i store = (Ok r, store') ->
  dr_patient r = Some p' ->
  d_idNumber pd = Some (idNumber p') ->
  createPatient emailMatch newId now' pd store'
  = (Throw {| name := "Error";
              message := "Patient with this ID number already exists";
              statusCode := Some 400 |}, store').
Proof.
  rewrite deletePatient_run.
  destruct (List.find (hasId i) store) as [p|] eqn:E; [|discriminate].
  intros [= <- <-]. simpl. intros [= <-] Hid.
  destruct (find_hasIdNumber_some (idNumber p)
              (updateFirst (hasId i) (applyUpdate now deactivate) store))
    as [q Hq].
  { destruct (find_hasId_split i store p E) as (l1 & l2 & -> & Hl1 & Hp).
    rewrite updateFirst_split.
    - exists (applyUpdate now deactivate p). split; [|reflexivity].
      apply in_or_app. right. now left.
    - intros q Hq. apply hasId_false. auto.
    - now apply hasId_true. }
  unfold createPatient, StoreM.tryCatch, StoreM.bind, StoreM.throw, findOne.
  rewrite Hid. simpl. rewrite Hq. reflexivity.
Qed.

End Deactivate.

Lemma requiredIfSet_nil (path msg : string) (v : option string) :
  requiredIfSet path msg v = [] -> forall s, v = Some s -> s <> "".
Proof.
  intros H s ->. simpl in H. now destruct (String.eqb_spec s "").
Qed.

Section Update.

Variable emailMatch : string -> bool.
Variable now : Z.

Lemma updatePatient_run (i : ObjectId) (u : PatientData) (store : list Patient) :
  updatePatient emailMatch now i u store
  = match List.find (hasId i) store with
    | None => (Throw notFoundError, store)
    | Some p =>
        if numberTaken i u p store then (Throw takenError, store)
        else
          match validateUpdate emailMatch u with
          | [] =>
              if indexRefuses i p (applyUpdate now u p) store
              then (Throw (addStatusCode duplicateKeyError), store)
              else (Ok (Some (applyUpdate now u p)),
                    updateFirst (hasId i) (applyUpdate now u) store)
          | errs => (Throw (addStatusCode (updateValidationError errs)), store)
          end
    end.
Proof.
  unfold updatePatient, numberTaken, StoreM.tryCatch, StoreM.bind, findById,
    findOneOther, findByIdAndUpdate, StoreM.throw, StoreM.ret.
  destruct (List.find (hasId i) store) as [p|] eqn:E; [|reflexivity].
  destruct (truthyString (d_idNumber u)
            && negb (String.eqb (orElse (d_idNumber u) "") (idNumber p)));
    simpl.
  - destruct (isTruthy _); simpl; [reflexivity|].
    destruct (validateUpdate emailMatch u); [|reflexivity].
    rewrite E. now destruct (indexRefuses i p (applyUpdate now u p) store).
  - destruct (validateUpdate emailMatch u); [|reflexivity].
    rewrite E. now destruct (indexRefuses i p (applyUpdate now u p) store).
Qed.

Lemma numberTaken_true (i : ObjectId) (u : PatientData) (p : Patient)
    (store : list Patient) (v : string) :
  d_idNumber u = Some v -> v <> "" -> v <> idNumber p ->
  (exists q, In q store /\ idNumber q = v /\ p_id q <> i) ->
  numberTaken i u p store = true.
Proof.
  intros Hv Hne Hp (q & Hin & Hq & Hi). unfold numberTaken, truthyString.
  rewrite Hv. simpl.
  destruct (String.eqb_spec v ""); [contradiction|].
  destruct (String.eqb_spec v (idNumber p)); [contradiction|]. simpl.
  destruct (List.find _ store) eqn:F; [reflexivity|].
  pose proof (find_none _ _ F q Hin) as C. simpl in C.
  unfold hasIdNumber in C. rewrite Hq, String.eqb_refl in C.
  rewrite hasId_false in C by exact Hi. discriminate.
Qed.

Lemma numberTaken_false (i : ObjectId) (u : PatientData) (p : Patient)
    (store : list Patient) :
  (forall q, In q store -> p_id q <> i -> Some (idNumber q) <> d_idNumber u) ->
  numberTaken i u p store = false
  /\ indexRefuses i p (applyUpdate now u p) store = false.
Proof.
  intros H.
  assert (F : forall v, d_idNumber u = Some v ->
                existsb (fun q => hasIdNumber v q && negb (hasId i q)) store
                = false).
  { intros v Hv. destruct (existsb _ store) eqn:E; [|reflexivity].
    apply existsb_exists in E as (q & Hin & Hq).
    apply andb_true_iff in Hq as [Hq Hi].
    unfold hasIdNumber in Hq. apply String.eqb_eq in Hq.
    apply negb_true_iff in Hi. unfold hasId in Hi. apply N.eqb_neq in Hi.
    elim (H q Hin Hi). now rewrite Hq, Hv. }
  split.
  - unfold numberTaken.
    destruct (d_idNumber u) as [v|] eqn:Hv; [|reflexivity]. simpl.
    destruct (List.find _ store) as [q|] eqn:E;
      [|now rewrite !andb_false_r].
    exfalso. apply find_some in E as [Hin Hq].
    assert (X : existsb (fun q => hasIdNumber v q && negb (hasId i q)) store
                = true) by (apply existsb_exists; eauto).
    rewrite (F v eq_refl) in X. discriminate.
  - unfold indexRefuses. simpl.
    destruct (d_idNumber u) as [v|] eqn:Hv; simpl.
    + rewrite (F v eq_refl). apply andb_false_r.
    + now rewrite String.eqb_refl.
Qed.

(** X18.  What [updatePatient] refuses.  An unknown identifier: ['Patient not
    found'], 404.  A new, non-empty identity number that another
    patient holds: ['Another patient with this ID number already
    exists'], 400.  Otherwise an update that a validator rejects (an
    empty identity number is one: it skips the check of holders): a
    [ValidationError], 500.  Every refusal carries a truthy [statusCode]
    and leaves the collection as it was. *)
Theorem updatePatient_refusals
    (i : ObjectId) (u : PatientData) (store : list Patient) :
  ((forall p, In p store -> p_id p <> i) ->
   updatePatient emailMatch now i u store
   = (Throw {| name := "Error"; message := "Patient not found";
               statusCode := Some 404 |}, store))
  /\ (forall p v,
        uniqueIds store -> In p store -> p_id p = i ->
        d_idNumber u = Some v -> v <> "" -> v <> idNumber p ->
        (exists q, In q store /\ idNumber q = v /\ p_id q <> i) ->
        updatePatient emailMatch now i u store
        = (Throw {| name := "Error";
                    message := "Another patient with this ID number already exists";
                    statusCode := Some 400 |}, store))
  /\ (forall p,
        uniqueIds store -> In p store -> p_id p = i ->
        (forall q, In q store -> p_id q <> i ->
                   Some (idNumber q) <> d_idNumber u) ->
        validateUpdate emailMatch u <> [] ->
        exists e, updatePatient emailMatch now i u store = (Throw e, store)
                  /\ name e = "ValidationError" /\ statusCode e = Some 500)
  /\ (forall e store',
        updatePatient emailMatch now i u store = (Throw e, store') ->
        truthyStatus e = true /\ store' = store).
Proof.
  split; [|split; [|split]].
  - intro H. rewrite updatePatient_run.
    now rewrite (proj1 (find_hasId_none i store) H).
  - intros p v Hu Hin Hp Hv Hne Hown Hq.
    rewrite updatePatient_run, (uniqueIds_find i store p Hu Hin Hp).
    now rewrite (numberTaken_true i u p store v Hv Hne Hown Hq).
  - intros p Hu Hin Hp Hfree Hbad.
    rewrite updatePatient_run, (uniqueIds_find i store p Hu Hin Hp).
    destruct (numberTaken_false i u p store Hfree) as [-> _].
    destruct (validateUpdate emailMatch u); [congruence|].
    eexists. split; [reflexivity|]. split; reflexivity.
  - intros e store'. rewrite updatePatient_run.
    destruct (List.find (hasId i) store) as [p|].
    + destruct (numberTaken i u p store); [now intros [= <- <-]|].
      destruct (validateUpdate emailMatch u).
      * destruct (indexRefuses i p (applyUpdate now u p) store);
          [now intros [= <- <-] | discriminate].
      * now intros [= <- <-].
    + now intros [= <- <-].
Qed.

Lemma updatePatient_ok (i : ObjectId) (u : PatientData) (store : list Patient)
    (p : Patient) :
  uniqueIds store -> In p store -> p_id p = i ->
  validateUpdate emailMatch u = [] ->
  (forall q, In q store -> p_id q <> i -> Some (idNumber q) <> d_idNumber u) ->
  updatePatient emailMatch now i u store
  = (Ok (Some (applyUpdate now u p)),
     map (fun q => if hasId i q then applyUpdate now u q else q) store).
Proof.
  intros Hu Hin Hp Hv Hfree.
  rewrite updatePatient_run, (uniqueIds_find i store p Hu Hin Hp).
  destruct (numberTaken_false i u p store Hfree) as [-> ->].
  now rewrite Hv, (updateFirst_map i _ store Hu).
Qed.

(** X19.  A valid update of a stored patient whose identity number, if it
    carries one, is held by no other patient succeeds: the answer is the
    patient with the properties of the update set and [updatedAt]
    moved, stored in place of the old document; every other document is
    untouched. *)
Theorem updatePatient_success
    (i : ObjectId) (u : PatientData) (store : list Patient) (p : Patient) :
  uniqueIds store -> In p store -> p_id p = i ->
  validateUpdate emailMatch u = [] ->
  (forall q, In q store -> p_id q <> i -> Some (idNumber q) <> d_idNumber u) ->
  updatePatient emailMatch now i u store
  = (Ok (Some (applyUpdate now u p)),
     map (fun q => if hasId i q then applyUpdate now u q else q) store).
Proof. apply updatePatient_ok. Qed.

(** X20.  Self-update: sending a patient's own identity number back is not a
    conflict. *)
Theorem updatePatient_own_idNumber
    (i : ObjectId) (u : PatientData) (store : list Patient) (p : Patient) :
  uniqueIds store -> uniqueIdNumbers store ->
  In p store -> p_id p = i ->
  d_idNumber u = Some (idNumber p) ->
  validateUpdate emailMatch u = [] ->
  exists p', updatePatient emailMatch now i u store
             = (Ok (Some p'),
                map (fun q => if hasId i q then p' else q) store)
             /\ idNumber p' = idNumber p /\ p_id p' = i.
Proof.
  intros Hu Hn Hin Hp Hid Hv. exists (applyUpdate now u p).
  split; [|split].
  - rewrite (updatePatient_ok i u store p Hu Hin Hp Hv).
    + f_equal. apply map_ext_in. intros q Hq.
      destruct (hasId i q) eqn:E; [|reflexivity].
      apply N.eqb_eq in E.
      pose proof (uniqueIds_find i store q Hu Hq E) as F1.
      pose proof (uniqueIds_find i store p Hu Hin Hp) as F2. congruence.
    + intros q Hq Hi. rewrite Hid. intros [= C].
      clear -Hn Hin Hq Hi Hp C. unfold uniqueIdNumbers in Hn.
      induction store as [|a store IH]; [contradiction|].
      simpl in Hn. inversion Hn as [|x l Hnot Hnd]; subst.
      destruct Hin as [->|Hin], Hq as [->|Hq].
      * now elim Hi.
      * apply Hnot. rewrite <- C. now apply in_map.
      * apply Hnot. rewrite C. now apply in_map.
      * now apply IH.
  - simpl. now rewrite Hid.
  - exact Hp.
Qed.

End Update.

Section UpdateInvariants.

Variable emailMatch : string -> bool.
Variable now : Z.

Lemma validateUpdate_nil_valid (u : PatientData) (q : Patient) :
  validateUpdate emailMatch u = [] ->
  validDocument emailMatch q ->
  validDocument emailMatch (applyUpdate now u q).
Proof.
  unfold validateUpdate. intros H (V1 & V2 & V3 & V4 & V5 & V6 & V7).
  apply app_eq_nil in H as [H8 H]. apply app_eq_nil in H as [H7 H].
  apply app_eq_nil in H as [H6 H]. apply app_eq_nil in H as [H5 H].
  apply app_eq_nil in H as [H3 H]. apply app_eq_nil in H as [H2 H1].
  apply firstFailure_nil in H5 as [H5 H5'].
  unfold validDocument, applyUpdate. simpl.
  split; [|split; [|split; [|split; [|split; [|split]]]]].
  - destruct (d_firstName u) as [s|] eqn:E; simpl; [|exact V1].
    exact (requiredIfSet_nil _ _ _ H1 s eq_refl).
  - destruct (d_lastName u) as [s|] eqn:E; simpl; [|exact V2].
    exact (requiredIfSet_nil _ _ _ H2 s eq_refl).
  - destruct (d_idNumber u) as [s|] eqn:E; simpl; [|exact V3].
    exact (requiredIfSet_nil _ _ _ H3 s eq_refl).
  - destruct (d_phone u) as [s|] eqn:E; simpl; [|exact V4].
    exact (requiredIfSet_nil _ _ _ H7 s eq_refl).
  - destruct (d_gender u) as [s|] eqn:E; simpl; [|exact V5].
    exact (enumCheck_nil _ _ _ H5' s eq_refl).
  - destruct (d_bloodType u) as [s|] eqn:E; simpl; [|exact V6].
    exact (enumCheck_nil _ _ _ H8 s eq_refl).
  - destruct (d_email u) as [s|] eqn:E; simpl; [|exact V7].
    intros e [= <-]. exact (matchCheck_nil _ _ H6 s eq_refl).
Qed.

Lemma indexRefuses_false (i : ObjectId) (p p' : Patient) (l1 l2 : list Patient) :
  indexRefuses i p p' (l1 ++ p :: l2) = false ->
  (forall q, In q (l1 ++ l2) -> p_id q <> i) ->
  ~ In (idNumber p) (map idNumber (l1 ++ l2)) ->
  ~ In (idNumber p') (map idNumber (l1 ++ l2)).
Proof.
  unfold indexRefuses. intros H Hother Hp Hin.
  destruct (String.eqb_spec (idNumber p') (idNumber p)) as [E|E];
    [now rewrite E in Hin|].
  simpl in H. apply in_map_iff in Hin as (q & Hq & Hin).
  assert (X : existsb (fun q => hasIdNumber (idNumber p') q
                                && negb (hasId i q)) (l1 ++ p :: l2) = true).
  { apply existsb_exists. exists q. split.
    - apply in_app_or in Hin as [Hin|Hin]; apply in_or_app; auto.
      right. now right.
    - unfold hasIdNumber. rewrite Hq, String.eqb_refl.
      now rewrite hasId_false by auto. }
  congruence.
Qed.

(** X21.  Whatever [updatePatient] answers on a collection with distinct
    identifiers, the identifiers are the same list as before, identity
    numbers stay pairwise distinct, and documents valid for the schema
    stay valid. *)
Theorem updatePatient_keeps_invariants
    (i : ObjectId) (u : PatientData) (store store' : list Patient)
    (r : Result (option Patient)) :
  uniqueIds store ->
  updatePatient emailMatch now i u store = (r, store') ->
  map p_id store' = map p_id store
  /\ (uniqueIdNumbers store -> uniqueIdNumbers store')
  /\ (Forall (validDocument emailMatch) store ->
      Forall (validDocument emailMatch) store').
Proof.
  intros Hu. rewrite updatePatient_run.
  destruct (List.find (hasId i) store) as [p|] eqn:E;
    [|intros [= <- <-]; auto].
  destruct (numberTaken i u p store); [intros [= <- <-]; auto|].
  destruct (validateUpdate emailMatch u) eqn:Hv; [|intros [= <- <-]; auto].
  destruct (indexRefuses i p (applyUpdate now u p) store) eqn:Hi;
    intros [= <- <-]; [auto|].
  split; [|split].
  - apply updateFirst_map_key. reflexivity.
  - destruct (find_hasId_split i store p E) as (l1 & l2 & -> & Hl1 & Hp).
    rewrite updateFirst_split;
      [|intros q Hq; apply hasId_false; auto|now apply hasId_true].
    unfold uniqueIdNumbers, uniqueIds in *.
    rewrite !map_app in *. simpl in *. intros Hn.
    pose proof (NoDup_remove_1 _ _ _ Hn) as N1.
    pose proof (NoDup_remove_2 _ _ _ Hn) as N2.
    pose proof (NoDup_remove_2 _ _ _ Hu) as U2.
    apply (Permutation.Permutation_NoDup
             (Permutation.Permutation_middle _ _ _)).
    constructor; [|exact N1].
    rewrite <- map_app in *.
    apply (indexRefuses_false i p _ l1 l2 Hi); [|exact N2].
    intros q Hq C. apply U2. rewrite Hp, <- C. now apply in_map.
  - apply updateFirst_Forall. intros q Hq.
    now apply validateUpdate_nil_valid.
Qed.

End UpdateInvariants.

(** ** Sorting and cutting pages *)

Section SortBy.

Context {A : Type}.
Variable leb : A -> A -> bool.

Lemma insertBy_perm (x : A) (l : list A) :
  Permutation (insertBy leb x l) (x :: l).
Proof.
  induction l as [|y l IH]; simpl; [reflexivity|].
  destruct (leb x y); [reflexivity|].
  rewrite IH. apply perm_swap.
Qed.

Lemma sortBy_perm (l : list A) : Permutation (sortBy leb l) l.
Proof.
  induction l as [|x l IH]; simpl; [reflexivity|].
  unfold sortBy in *. simpl. rewrite insertBy_perm. now constructor.
Qed.

Lemma sortBy_length (l : list A) : List.length (sortBy leb l) = List.length l.
Proof. apply Permutation_length, sortBy_perm. Qed.

Lemma sortBy_In (x : A) (l : list A) : In x (sortBy leb l) <-> In x l.
Proof.
  split; apply Permutation_in; [|symmetry]; apply sortBy_perm.
Qed.

Hypothesis leb_total : forall x y, leb x y = true \/ leb y x = true.
Hypothesis leb_trans :
  forall x y z, leb x y = true -> leb y z = true -> leb x z = true.

Lemma insertBy_sorted (x : A) (l : list A) :
  StronglySorted (fun a b => leb a b = true) l ->
  StronglySorted (fun a b => leb a b = true) (insertBy leb x l).
Proof.
  induction 1 as [|y l Hs IH Hy]; simpl.
  - constructor; constructor.
  - destruct (leb x y) eqn:E.
    + constructor; [constructor; assumption|].
      constructor; [exact E|].
      eapply Forall_impl; [|exact Hy]. intros z Hz. eapply leb_trans; eauto.
    + constructor; [exact IH|].
      eapply Permutation_Forall.
      * symmetry. apply insertBy_perm.
      * constructor; [|exact Hy]. destruct (leb_total x y); congruence.
Qed.

Lemma sortBy_sorted (l : list A) :
  StronglySorted (fun a b => leb a b = true) (sortBy leb l).
Proof.
  induction l as [|x l IH]; [constructor|].
  unfold sortBy in *. simpl. now apply insertBy_sorted.
Qed.

End SortBy.

Section Cutting.

Context {A : Type}.

Lemma StronglySorted_skipn (R : A -> A -> Prop) (n : nat) (l : list A) :
  StronglySorted R l -> StronglySorted R (skipn n l).
Proof.
  revert l. induction n as [|n IH]; intros l H; [exact H|].
  destruct l as [|a l]; [constructor|]. simpl. apply IH.
  now inversion H.
Qed.

Lemma StronglySorted_firstn (R : A -> A -> Prop) (n : nat) (l : list A) :
  StronglySorted R l -> StronglySorted R (firstn n l).
Proof.
  revert l. induction n as [|n IH]; intros l H; [constructor|].
  destruct l as [|a l]; [constructor|]. simpl.
  inversion H as [|x l' Hs Hf]; subst. constructor; [now apply IH|].
  clear -Hf. revert n. induction Hf as [|y l Hy Hl IHf]; intros n.
  - rewrite firstn_nil. constructor.
  - destruct n; simpl; constructor; auto.
Qed.

Lemma StronglySorted_weaken (R R' : A -> A -> Prop) (l : list A) :
  (forall a b, R a b -> R' a b) ->
  StronglySorted R l -> StronglySorted R' l.
Proof.
  intros HR. induction 1 as [|a l Hs IH Hf]; constructor; [exact IH|].
  eapply Forall_impl; [|exact Hf]. auto.
Qed.

Lemma In_cut (x : A) (n m : nat) (l : list A) :
  In x (firstn n (skipn m l)) -> In x l.
Proof.
  intro H. rewrite <- (firstn_skipn m l). apply in_or_app. right.
  rewrite <- (firstn_skipn n (skipn m l)). apply in_or_app. now left.
Qed.

Lemma firstn_plus (n m : nat) (l : list A) :
  firstn (n + m) l = (firstn n l ++ firstn m (skipn n l))%list.
Proof.
  revert l. induction n as [|n IH]; intros l; [reflexivity|].
  destruct l as [|a l]; simpl.
  - now rewrite firstn_nil.
  - now rewrite IH.
Qed.

(** The cuts of size [size] at 0, [size], 2 [size], ... put end to end. *)
Lemma cuts_concat (size : nat) (l : list A) (n : nat) :
  flat_map (fun k => firstn size (skipn ((k - 1) * size) l)) (seq 1 n)
  = firstn (n * size) l.
Proof.
  induction n as [|n IH]; [reflexivity|].
  rewrite seq_S, flat_map_app, IH. simpl.
  rewrite app_nil_r, Nat.sub_0_r.
  replace (size + n * size)%nat with (n * size + size)%nat by lia.
  now rewrite firstn_plus.
Qed.

End Cutting.

Lemma ceilDiv_bounds (a b : Z) :
  1 <= b -> (ceilDiv a b - 1) * b < a <= ceilDiv a b * b.
Proof.
  intros Hb. unfold ceilDiv.
  pose proof (Z.mul_div_le (- a) b ltac:(lia)) as H1.
  pose proof (Z.mul_succ_div_gt (- a) b ltac:(lia)) as H2.
  remember ((- a) / b) as q. nia.
Qed.

Lemma lt_ceilDiv (p a b : Z) :
  1 <= b -> (p <? ceilDiv a b) = true <-> p * b < a.
Proof.
  intros Hb. pose proof (ceilDiv_bounds a b Hb) as [H1 H2].
  rewrite Z.ltb_lt. remember (ceilDiv a b) as c. split; intro H; nia.
Qed.

Lemma newestFirst_total (p q : Patient) :
  newestFirst p q = true \/ newestFirst q p = true.
Proof. unfold newestFirst. rewrite !Z.leb_le. lia. Qed.

Lemma newestFirst_trans (p q r : Patient) :
  newestFirst p q = true -> newestFirst q r = true -> newestFirst p r = true.
Proof. unfold newestFirst. rewrite !Z.leb_le. lia. Qed.

(** ** Listing patients by page *)

Section Listing.

Variable page limit : option Z.
Variable filters : option Filters.
Variable store : list Patient.

Lemma getAllPatients_run :
  getAllPatients page limit filters store
  = (Ok {| pp_patients :=
             firstn (Z.to_nat (Z.min 100 (Z.max 1 (orElse limit 10))))
               (skipn (Z.to_nat ((Z.max 1 (orElse page 1) - 1)
                                 * Z.min 100 (Z.max 1 (orElse limit 10))))
                  (sortBy newestFirst
                     (filter (listQuery (orElse filters noFilters)) store)));
           pp_pagination :=
             {| pg_total :=
                  Z.of_nat (List.length
                              (filter (listQuery (orElse filters noFilters))
                                 store));
                pg_page := Z.max 1 (orElse page 1);
                pg_limit := Z.min 100 (Z.max 1 (orElse limit 10));
                pg_totalPages :=
                  ceilDiv
                    (Z.of_nat (List.length
                                 (filter (listQuery (orElse filters noFilters))
                                    store)))
                    (Z.min 100 (Z.max 1 (orElse limit 10)));
                pg_hasNextPage :=
                  Z.max 1 (orElse page 1)
                  <? ceilDiv
                       (Z.of_nat (List.length
                                    (filter (listQuery (orElse filters noFilters))
                                       store)))
                       (Z.min 100 (Z.max 1 (orElse limit 10)));
                pg_hasPrevPage := 1 <? Z.max 1 (orElse page 1) |} |},
     store).
Proof. reflexivity. Qed.

(** X22.  The page numbers [getAllPatients] reports: the page is at least 1
    and the limit between 1 and 100, whatever is asked (values in range
    are kept); [total] counts the stored patients the query matches;
    [totalPages] is the number of pages of [limit] documents that
    [total] documents fill, 0 for none; [hasNextPage] holds exactly
    when documents remain after this page, [hasPrevPage] exactly when
    the page is not the first.  The collection is not changed. *)
Theorem getAllPatients_pagination :
  exists r, getAllPatients page limit filters store = (Ok r, store)
  /\ 1 <= pg_page (pp_pagination r)
  /\ (1 <= orElse page 1 -> pg_page (pp_pagination r) = orElse page 1)
  /\ 1 <= pg_limit (pp_pagination r) <= 100
  /\ (1 <= orElse limit 10 <= 100 ->
      pg_limit (pp_pagination r) = orElse limit 10)
  /\ pg_total (pp_pagination r)
     = Z.of_nat (List.length
                   (filter (listQuery (orElse filters noFilters)) store))
  /\ (pg_totalPages (pp_pagination r) - 1) * pg_limit (pp_pagination r)
     < pg_total (pp_pagination r)
     <= pg_totalPages (pp_pagination r) * pg_limit (pp_pagination r)
  /\ (pg_hasNextPage (pp_pagination r) = true <->
      pg_page (pp_pagination r) * pg_limit (pp_pagination r)
      < pg_total (pp_pagination r))
  /\ (pg_hasPrevPage (pp_pagination r) = true <->
      1 < pg_page (pp_pagination r)).
Proof.
  eexists. split; [apply getAllPatients_run|]. simpl.
  split; [lia|]. split; [lia|]. split; [lia|]. split; [lia|].
  split; [reflexivity|]. split; [apply ceilDiv_bounds; lia|].
  split; [apply lt_ceilDiv; lia|]. apply Z.ltb_lt.
Qed.

(** X23.  The documents of a page: as many as the limit allows of what is
    left after the pages before (none after the last page), each a
    stored patient that passes the filters and has the [isActive] asked
    for ([true] when the filters do not say), newest first. *)
Theorem getAllPatients_page_contents :
  exists r, getAllPatients page limit filters store = (Ok r, store)
  /\ Z.of_nat (List.length (pp_patients r))
     = Z.min (pg_limit (pp_pagination r))
         (Z.max 0 (pg_total (pp_pagination r)
                   - (pg_page (pp_pagination r) - 1)
                     * pg_limit (pp_pagination r)))
  /\ (pg_totalPages (pp_pagination r) < pg_page (pp_pagination r) ->
      pp_patients r = [])
  /\ (forall q, In q (pp_patients r) ->
        In q store
        /\ f_rest (orElse filters noFilters) q = true
        /\ isActive q = orElse (f_isActive (orElse filters noFilters)) true)
  /\ StronglySorted notOlder (pp_patients r).
Proof.
  eexists. split; [apply getAllPatients_run|]. simpl.
  set (L := Z.min 100 (Z.max 1 (orElse limit 10))).
  set (P := Z.max 1 (orElse page 1)).
  set (all := filter (listQuery (orElse filters noFilters)) store).
  assert (HL : 1 <= L <= 100) by (unfold L; lia).
  assert (HP : 1 <= P) by (unfold P; lia).
  assert (Hlen : Z.of_nat (List.length (firstn (Z.to_nat L)
                   (skipn (Z.to_nat ((P - 1) * L)) (sortBy newestFirst all))))
                 = Z.min L (Z.max 0 (Z.of_nat (List.length all) - (P - 1) * L))).
  { rewrite length_firstn, length_skipn, sortBy_length. nia. }
  split; [exact Hlen|]. split; [|split].
  - intros Hlast. pose proof (ceilDiv_bounds (Z.of_nat (List.length all)) L
                                ltac:(lia)) as [_ Hc].
    apply length_zero_iff_nil. apply Nat2Z.inj. rewrite Hlen. simpl.
    remember (ceilDiv (Z.of_nat (List.length all)) L) as c. nia.
  - intros q Hq. apply In_cut in Hq. apply sortBy_In in Hq.
    apply filter_In in Hq as [Hin Hq]. unfold listQuery in Hq.
    apply andb_true_iff in Hq as [Hr Ha]. apply Bool.eqb_prop in Ha.
    auto.
  - apply StronglySorted_firstn, StronglySorted_skipn.
    apply (StronglySorted_weaken (fun a b => newestFirst a b = true)).
    + intros a b Hab. unfold notOlder, newestFirst in *.
      now apply Z.leb_le.
    + apply sortBy_sorted; [apply newestFirst_total|apply newestFirst_trans].
Qed.

End Listing.

Section Pages.

Variable limit : option Z.
Variable filters : option Filters.

Lemma patientsOfPage_eq (page : option Z) (store : list Patient) :
  patientsOfPage page limit filters store
  = firstn (Z.to_nat (Z.min 100 (Z.max 1 (orElse limit 10))))
      (skipn (Z.to_nat ((Z.max 1 (orElse page 1) - 1)
                        * Z.min 100 (Z.max 1 (orElse limit 10))))
         (sortBy newestFirst
            (filter (listQuery (orElse filters noFilters)) store))).
Proof. unfold patientsOfPage. now rewrite getAllPatients_run. Qed.

Lemma patientsOfPage_In (page : option Z) (store : list Patient) (q : Patient) :
  In q (patientsOfPage page limit filters store) ->
  In q store
  /\ isActive q = orElse (f_isActive (orElse filters noFilters)) true.
Proof.
  rewrite patientsOfPage_eq. intros Hq.
  apply In_cut in Hq. apply sortBy_In in Hq.
  apply filter_In in Hq as [Hin Hq]. unfold listQuery in Hq.
  apply andb_true_iff in Hq as [_ Ha]. apply Bool.eqb_prop in Ha. auto.
Qed.

Lemma sorted_strict (l : list Patient) :
  StronglySorted notOlder l -> NoDup (map createdAt l) ->
  StronglySorted newer l.
Proof.
  induction 1 as [|a l Hs IH Hf]; simpl; intros Hnd; [constructor|].
  inversion Hnd as [|x m Hnot Hnd']; subst.
  constructor; [now apply IH|].
  apply Forall_forall. intros b Hb.
  rewrite Forall_forall in Hf. specialize (Hf b Hb).
  unfold notOlder, newer in *.
  assert (createdAt b <> createdAt a).
  { intro C. apply Hnot. rewrite <- C. now apply in_map. }
  lia.
Qed.

(** A list has one arrangement strictly newest first. *)
Lemma newest_first_unique (l1 l2 : list Patient) :
  StronglySorted newer l1 -> StronglySorted newer l2 ->
  Permutation l1 l2 -> l1 = l2.
Proof.
  intros H1. revert l2.
  induction H1 as [|a t1 Hs1 IH Hf1]; intros l2 H2 Hp.
  - now apply Permutation_nil in Hp.
  - destruct l2 as [|b t2];
      [apply Permutation_sym, Permutation_nil in Hp; discriminate|].
    inversion H2 as [|x m Hs2 Hf2]; subst.
    assert (E : a = b).
    { assert (Ha : In a (b :: t2))
        by (apply (Permutation_in _ Hp); now left).
      assert (Hb : In b (a :: t1))
        by (apply (Permutation_in _ (Permutation_sym Hp)); now left).
      destruct Ha as [Ha|Ha]; [now symmetry|].
      destruct Hb as [Hb|Hb]; [exact Hb|].
      rewrite Forall_forall in Hf1, Hf2.
      specialize (Hf1 b Hb). specialize (Hf2 a Ha).
      unfold newer in *. lia. }
    subst b. f_equal. apply IH; [exact Hs2|].
    now apply Permutation_cons_inv in Hp.
Qed.

(** X24.  When the matching patients have pairwise distinct
    [createdAt], walking the pages 1 to [totalPages] with one limit and
    one set of filters, on a collection that does not change
    meanwhile, lists every matching patient exactly as often as it is
    stored, strictly newest first; this is the only arrangement of the
    matching patients newest first, so no document is skipped or
    repeated at a page border. *)
Theorem getAllPatients_pages_partition (store : list Patient) (r : PatientPage) :
  NoDup (map createdAt (filter (listQuery (orElse filters noFilters)) store)) ->
  getAllPatients (Some 1) limit filters store = (Ok r, store) ->
  Permutation
    (flat_map (fun k => patientsOfPage (Some (Z.of_nat k)) limit filters store)
       (seq 1 (Z.to_nat (pg_totalPages (pp_pagination r)))))
    (filter (listQuery (orElse filters noFilters)) store)
  /\ StronglySorted newer
       (flat_map (fun k => patientsOfPage (Some (Z.of_nat k)) limit filters store)
          (seq 1 (Z.to_nat (pg_totalPages (pp_pagination r)))))
  /\ (forall l,
        Permutation l (filter (listQuery (orElse filters noFilters)) store) ->
        StronglySorted newer l ->
        flat_map (fun k => patientsOfPage (Some (Z.of_nat k)) limit filters store)
          (seq 1 (Z.to_nat (pg_totalPages (pp_pagination r))))
        = l).
Proof.
  intros Hnd. rewrite getAllPatients_run. intros [= <-]. simpl.
  set (L := Z.min 100 (Z.max 1 (orElse limit 10))).
  set (all := filter (listQuery (orElse filters noFilters)) store) in *.
  assert (HL : 1 <= L <= 100) by (unfold L; lia).
  assert (E : flat_map
                (fun k => patientsOfPage (Some (Z.of_nat k)) limit filters store)
                (seq 1 (Z.to_nat (ceilDiv (Z.of_nat (List.length all)) L)))
              = sortBy newestFirst all).
  { rewrite (flat_map_ext _
               (fun k => firstn (Z.to_nat L)
                           (skipn ((k - 1) * Z.to_nat L)
                              (sortBy newestFirst all)))).
    - rewrite cuts_concat. apply firstn_all2. rewrite sortBy_length.
      pose proof (ceilDiv_bounds (Z.of_nat (List.length all)) L ltac:(lia))
        as [_ Hc].
      remember (ceilDiv (Z.of_nat (List.length all)) L) as c. nia.
    - intros k. rewrite patientsOfPage_eq. fold L. fold all. simpl.
      do 2 f_equal. nia. }
  rewrite E.
  assert (Hsorted : StronglySorted newer (sortBy newestFirst all)).
  { apply sorted_strict.
    - apply (StronglySorted_weaken (fun a b => newestFirst a b = true)).
      + intros a b Hab. unfold notOlder, newestFirst in *. now apply Z.leb_le.
      + apply sortBy_sorted; [apply newestFirst_total|apply newestFirst_trans].
    - eapply Permutation_NoDup; [|exact Hnd].
      apply Permutation_map, Permutation_sym, sortBy_perm. }
  split; [apply sortBy_perm|]. split; [exact Hsorted|].
  intros l Hl Hs. apply newest_first_unique; [exact Hsorted|exact Hs|].
  rewrite Hl. apply sortBy_perm.
Qed.

(** X17.  A deactivated patient is not listed any more, unless the filters
    ask for inactive patients. *)
Theorem delete_then_list
    (emailMatch : string -> bool) (now : Z) (i : ObjectId)
    (store store' : list Patient) (res : DeleteResult) (page : option Z) :
  uniqueIds store ->
  deletePatient emailMatch now i store = (Ok res, store') ->
  f_isActive (orElse filters noFilters) <> Some false ->
  forall q, In q (patientsOfPage page limit filters store') -> p_id q <> i.
Proof.
  intros Hu Hd Hf q Hq Hi.
  apply patientsOfPage_In in Hq as [Hin Ha].
  assert (Hact : isActive q = true).
  { rewrite Ha. destruct (f_isActive (orElse filters noFilters)) as [[|]|];
      simpl; congruence. }
  rewrite deletePatient_run in Hd.
  destruct (List.find (hasId i) store) as [p|]; [|discriminate].
  injection Hd as _ <-.
  rewrite (updateFirst_map i _ store Hu) in Hin.
  apply in_map_iff in Hin as (q0 & Hq0 & _).
  destruct (hasId i q0) eqn:E.
  - subst q. simpl in Hact. discriminate.
  - subst q. unfold hasId in E. apply N.eqb_neq in E. contradiction.
Qed.

End Pages.

(** ** The [age] virtual *)

Section AgeFacts.

Variable localDate : Z -> CalendarDate.

Lemma age_cases (today dob : Z) :
  (notAfter (localDate dob)
     {| fullYear := fullYear (localDate dob);
        monthIndex := monthIndex (localDate today);
        dayOfMonth := dayOfMonth (localDate today) |}
   /\ age localDate today dob
      = fullYear (localDate today) - fullYear (localDate dob))
  \/ (~ notAfter (localDate dob)
        {| fullYear := fullYear (localDate dob);
           monthIndex := monthIndex (localDate today);
           dayOfMonth := dayOfMonth (localDate today) |}
      /\ age localDate today dob
         = fullYear (localDate today) - fullYear (localDate dob) - 1).
Proof.
  unfold age, notAfter. simpl.
  destruct (monthIndex (localDate today) - monthIndex (localDate dob) <? 0)
    eqn:E1; simpl.
  - right. apply Z.ltb_lt in E1. split; [lia|reflexivity].
  - apply Z.ltb_ge in E1.
    destruct (monthIndex (localDate today) - monthIndex (localDate dob) =? 0)
      eqn:E2; simpl.
    + apply Z.eqb_eq in E2.
      destruct (dayOfMonth (localDate today) <? dayOfMonth (localDate dob))
        eqn:E3.
      * right. apply Z.ltb_lt in E3. split; [lia|reflexivity].
      * left. apply Z.ltb_ge in E3. split; [lia|reflexivity].
    + left. apply Z.eqb_neq in E2. split; [lia|reflexivity].
Qed.

(** X25.  [age] counts the anniversaries of the birth date reached by today:
    it is [k] exactly when the [k]-th anniversary is not after today
    and the next one is.  On the day of the birthday the age has
    already moved. *)
Theorem age_counts_anniversaries (today dob k : Z) :
  age localDate today dob = k <->
  notAfter (anniversary k (localDate dob)) (localDate today)
  /\ ~ notAfter (anniversary (k + 1) (localDate dob)) (localDate today).
Proof.
  destruct (age_cases today dob) as [[H ->]|[H ->]];
    unfold notAfter, anniversary in *; simpl in *; lia.
Qed.

(** X26.  The age is not negative when the birth date is not after today,
    and negative when it is. *)
Theorem age_sign (today dob : Z) :
  0 <= age localDate today dob <->
  notAfter (localDate dob) (localDate today).
Proof.
  destruct (age_cases today dob) as [[H ->]|[H ->]];
    unfold notAfter in *; simpl in *; lia.
Qed.

End AgeFacts.

(** ** The further theorems on the samples *)

Import Register.

Lemma register_uniqueIds : uniqueIds register.
Proof.
  unfold uniqueIds. simpl. constructor.
  - intros [H|[]]. discriminate H.
  - constructor; [intros []|constructor].
Defined.

Lemma register_uniqueIdNumbers : uniqueIdNumbers register.
Proof.
  unfold uniqueIdNumbers. simpl. constructor.
  - intros [H|[]]. discriminate H.
  - constructor; [intros []|constructor].
Defined.

Lemma luis_in_register : In luisStored register.
Proof. right. left. reflexivity. Defined.

(** Noon and midnight of March 1 in Santiago get the same answer. *)
Lemma checkConflict_same_day_witness :
  inDayWindow santiago march1 (march1 + 12 * JsDate.msPerHour)
  /\ checkConflict santiago clinic "Dr. A" (march1 + 12 * JsDate.msPerHour)
       "09:30" "09:45" None
     = checkConflict santiago clinic "Dr. A" march1 "09:30" "09:45" None.
Proof.
  assert (H : inDayWindow santiago march1 (march1 + 12 * JsDate.msPerHour)).
  { exists march1. unfold march1, santiago, JsDate.msPerHour.
    split; [reflexivity|lia]. }
  split; [exact H|].
  exact (checkConflict_same_day santiago clinic "Dr. A" march1 _
           "09:30" "09:45" None H).
Defined.

(** Dr. B's appointment from 09:00 to 11:00 does not block Dr. A from
    10:00 to 11:00. *)
Lemma other_practitioner_or_day_ignored_witness :
  (practitioner drB_09_11 <> "Dr. A"
   \/ ~ inDayWindow santiago march1 (date drB_09_11))
  /\ checkConflict santiago ([] ++ drB_09_11 :: [drA_09_10; drA_14_15])
       "Dr. A" march1 "10:00" "11:00" None
     = checkConflict santiago ([] ++ [drA_09_10; drA_14_15])
         "Dr. A" march1 "10:00" "11:00" None.
Proof.
  assert (H : practitioner drB_09_11 <> "Dr. A"
              \/ ~ inDayWindow santiago march1 (date drB_09_11)).
  { left. intro C. discriminate C. }
  split; [exact H|].
  exact (other_practitioner_or_day_ignored santiago []
           [drA_09_10; drA_14_15] drB_09_11 "Dr. A" march1
           "10:00" "11:00" None H).
Defined.

(** The instant 10:00, the end of Dr. A's first appointment, proposed
    as an empty interval, conflicts. *)
Lemma zero_length_conflict_iff_witness :
  (forall x, In x (candidates santiago clinic "Dr. A" march1 None) ->
             wellFormed (startTime x) (endTime x))
  /\ checkConflict santiago clinic "Dr. A" march1 "10:00" "10:00" None = true.
Proof.
  assert (H : forall x, In x (candidates santiago clinic "Dr. A" march1 None) ->
                        wellFormed (startTime x) (endTime x)).
  { rewrite candidates_clinic_drA. intros x [<-|[<-|[]]]; reflexivity. }
  split; [exact H|].
  apply (proj2 (zero_length_conflict_iff santiago clinic "Dr. A" march1
                  "10:00" None H)).
  exists drA_09_10. split; [exact drA_09_10_candidate|].
  split; reflexivity.
Defined.

Lemma overlapTest_symmetric_witness :
  wellFormed "09:30" "10:30" /\ wellFormed "09:00" "10:00"
  /\ overlapTest "09:30" "10:30" "09:00" "10:00"
     = overlapTest "09:00" "10:00" "09:30" "10:30".
Proof.
  split; [reflexivity|]. split; [reflexivity|].
  exact (overlapTest_symmetric "09:30" "10:30" "09:00" "10:00"
           eq_refl eq_refl).
Defined.

Lemma filter_pairwiseDisjoint (f : Appointment -> bool) (l : list Appointment) :
  pairwiseDisjoint l -> pairwiseDisjoint (filter f l).
Proof.
  induction l as [|a l IH]; simpl; [auto|].
  intros [Ha Hl]. destruct (f a); simpl; [|auto].
  split; [|auto]. intros b Hb. apply filter_In in Hb as [Hb _]. auto.
Defined.

Lemma smallClinic_everywhere : nonOverlapEverywhere santiago smallClinic.
Proof.
  intros p d. apply nonOverlapInvariant_candidates.
  unfold candidates, find. split.
  - intros a Ha. apply filter_In in Ha as [Ha _].
    destruct Ha as [<-|[<-|[]]]; reflexivity.
  - apply filter_pairwiseDisjoint. simpl.
    split; [intros b [<-|[]]; reflexivity|].
    split; [intros b []|exact I].
Defined.

(** Booking Dr. A from 10:00 to 11:00 in the small clinic keeps every
    practitioner and day free of overlaps. *)
Lemma safe_booking_everywhere_witness :
  nonOverlapEverywhere santiago smallClinic
  /\ wellFormed (startTime proposed) (endTime proposed)
  /\ checkConflict santiago smallClinic (practitioner proposed)
       (date proposed) (startTime proposed) (endTime proposed) None = false
  /\ nonOverlapEverywhere santiago (insertAppointment smallClinic proposed).
Proof.
  split; [exact smallClinic_everywhere|].
  split; [reflexivity|]. split; [reflexivity|].
  exact (safe_booking_everywhere santiago smallClinic proposed
           smallClinic_everywhere eq_refl eq_refl).
Defined.

(** [getPatientById] on the register: 11 is Luis, 12 is nobody. *)
Lemma getPatientById_spec_witness :
  getPatientById 11%N register = (Ok luisStored, register)
  /\ getPatientById 12%N register
     = (Throw {| name := "Error"; message := "Patient not found";
                 statusCode := Some 404 |}, register).
Proof.
  pose proof (getPatientById_spec 12%N register) as (_ & H404 & _).
  split; [reflexivity|]. apply H404.
  intros p [<-|[<-|[]]] C; discriminate C.
Defined.

Lemma create_luis :
  createPatient anyEmail 11%N march1 luis patients = (Ok luisStored, register).
Proof. reflexivity. Defined.

Lemma patients_fresh_11 : forall q, In q patients -> p_id q <> 11%N.
Proof. intros q [<-|[]] C. discriminate C. Defined.

Lemma patients_unique :
  uniqueIdNumbers patients /\ uniqueIds patients.
Proof.
  split; (constructor; [intros []|constructor]).
Defined.

(** Creating Luis beside Ana keeps numbers and identifiers distinct. *)
Lemma createPatient_keeps_invariants_witness :
  createPatient anyEmail 11%N march1 luis patients = (Ok luisStored, register)
  /\ uniqueIdNumbers register /\ uniqueIds register.
Proof.
  pose proof (createPatient_keeps_invariants anyEmail 11%N march1 luis
                patients register (Ok luisStored) create_luis)
    as (Hn & _ & Hi).
  split; [exact create_luis|]. split.
  - exact (Hn (proj1 patients_unique)).
  - exact (Hi patients_fresh_11 (proj2 patients_unique)).
Defined.

Lemma create_then_get_witness :
  (forall q, In q patients -> p_id q <> 11%N)
  /\ createPatient anyEmail 11%N march1 luis patients = (Ok luisStored, register)
  /\ getPatientById 11%N register = (Ok luisStored, register).
Proof.
  split; [exact patients_fresh_11|]. split; [exact create_luis|].
  exact (create_then_get anyEmail 11%N march1 luis patients register
           luisStored patients_fresh_11 create_luis).
Defined.

Lemma create_twice_refused_witness :
  createPatient anyEmail 11%N march1 luis patients = (Ok luisStored, register)
  /\ createPatient anyEmail 12%N later luis register
     = (Throw {| name := "Error";
                 message := "Patient with this ID number already exists";
                 statusCode := Some 400 |}, register).
Proof.
  split; [exact create_luis|].
  exact (create_twice_refused anyEmail 11%N 12%N march1 later luis luis
           patients register luisStored create_luis eq_refl).
Defined.

(** Deactivating Luis: he stays in the register, inactive. *)
Lemma deletePatient_spec_witness :
  uniqueIds register /\ In luisStored register
  /\ exists p', isActive p' = false /\ idNumber p' = idNumber luisStored
     /\ deletePatient anyEmail later 11%N register
        = (Ok {| success := true;
                 dr_message := "Patient deactivated successfully";
                 dr_patient := Some p' |}, [ana; p'])
     /\ getPatientById 11%N [ana; p'] = (Ok p', [ana; p']).
Proof.
  pose proof (deletePatient_spec anyEmail later 11%N register) as (_ & H).
  specialize (H luisStored register_uniqueIds luis_in_register eq_refl).
  split; [exact register_uniqueIds|]. split; [exact luis_in_register|].
  eexists. split; [|split; [|exact H]]; reflexivity.
Defined.

Lemma deletePatient_removes_nothing_witness :
  exists r store',
    deletePatient anyEmail later 11%N register = (r, store')
    /\ map p_id store' = map p_id register
    /\ map idNumber store' = map idNumber register.
Proof.
  eexists. eexists. split; [reflexivity|].
  pose proof (deletePatient_removes_nothing anyEmail later 11%N register _ _
                eq_refl) as (H1 & H2 & _).
  split; [exact H1 | exact H2].
Defined.

Lemma delete_then_create_refused_witness :
  exists res store',
    deletePatient anyEmail later 11%N register = (Ok res, store')
    /\ createPatient anyEmail 12%N later luis store'
       = (Throw {| name := "Error";
                   message := "Patient with this ID number already exists";
                   statusCode := Some 400 |}, store').
Proof.
  eexists. eexists. split; [reflexivity|].
  exact (delete_then_create_refused anyEmail later 11%N 12%N later register
           _ _ _ luis eq_refl eq_refl eq_refl).
Defined.

(** Updates of Luis: taking the number of Ana is refused with 400, an
    empty first name with 500, and nobody has identifier 12. *)
Lemma updatePatient_refusals_witness :
  updatePatient anyEmail later 12%N newPhone register
  = (Throw {| name := "Error"; message := "Patient not found";
              statusCode := Some 404 |}, register)
  /\ updatePatient anyEmail later 11%N numberOfAna register
     = (Throw {| name := "Error";
                 message := "Another patient with this ID number already exists";
                 statusCode := Some 400 |}, register)
  /\ exists e, updatePatient anyEmail later 11%N emptyFirstName register
               = (Throw e, register)
               /\ name e = "ValidationError" /\ statusCode e = Some 500.
Proof.
  pose proof (updatePatient_refusals anyEmail later 12%N newPhone register)
    as (H404 & _).
  pose proof (updatePatient_refusals anyEmail later 11%N numberOfAna register)
    as (_ & H400 & _).
  pose proof (updatePatient_refusals anyEmail later 11%N emptyFirstName
                register) as (_ & _ & H500 & _).
  split; [|split].
  - apply H404. intros p [<-|[<-|[]]] C; discriminate C.
  - apply (H400 luisStored "11.111.111-1" register_uniqueIds
             luis_in_register eq_refl eq_refl).
    + intro C. discriminate C.
    + intro C. discriminate C.
    + exists ana. split; [left; reflexivity|]. split; [reflexivity|].
      intro C. discriminate C.
  - apply (H500 luisStored register_uniqueIds luis_in_register eq_refl).
    + intros q Hq Hi C. discriminate C.
    + intro C. discriminate C.
Defined.

Lemma newPhone_free :
  forall q, In q register -> p_id q <> 11%N ->
            Some (idNumber q) <> d_idNumber newPhone.
Proof.
  intros q [<-|[<-|[]]] Hi C; [discriminate C | now elim Hi].
Defined.

(** Luis gets a new phone number; Ana's document is untouched. *)
Lemma updatePatient_success_witness :
  updatePatient anyEmail later 11%N newPhone register
  = (Ok (Some (applyUpdate later newPhone luisStored)),
     [ana; applyUpdate later newPhone luisStored])
  /\ phone (applyUpdate later newPhone luisStored) = "+56 9 3333 3333".
Proof.
  split; [|reflexivity].
  exact (updatePatient_success anyEmail later 11%N newPhone register
           luisStored register_uniqueIds luis_in_register eq_refl eq_refl
           newPhone_free).
Defined.

Lemma updatePatient_own_idNumber_witness :
  d_idNumber newPhone = Some (idNumber luisStored)
  /\ exists p', updatePatient anyEmail later 11%N newPhone register
                = (Ok (Some p'),
                   map (fun q => if hasId 11%N q then p' else q) register)
                /\ idNumber p' = idNumber luisStored /\ p_id p' = 11%N.
Proof.
  split; [reflexivity|].
  exact (updatePatient_own_idNumber anyEmail later 11%N newPhone register
           luisStored register_uniqueIds register_uniqueIdNumbers
           luis_in_register eq_refl eq_refl eq_refl).
Defined.

Lemma updatePatient_keeps_invariants_witness :
  exists r store',
    updatePatient anyEmail later 11%N newPhone register = (r, store')
    /\ map p_id store' = map p_id register
    /\ uniqueIdNumbers store'.
Proof.
  eexists. eexists. split; [reflexivity|].
  pose proof (updatePatient_keeps_invariants anyEmail later 11%N newPhone
                register _ _ register_uniqueIds eq_refl) as (H1 & H2 & _).
  split; [exact H1 | exact (H2 register_uniqueIdNumbers)].
Defined.

(** Page 2 of the register by pages of one: the older patient, Ana. *)
Lemma getAllPatients_pagination_witness :
  exists r, getAllPatients (Some 2) (Some 1) None register = (Ok r, register)
  /\ pg_total (pp_pagination r) = 2 /\ pg_totalPages (pp_pagination r) = 2
  /\ pg_hasNextPage (pp_pagination r) = false
  /\ ~ (pg_page (pp_pagination r) * pg_limit (pp_pagination r)
        < pg_total (pp_pagination r)).
Proof.
  destruct (getAllPatients_pagination (Some 2) (Some 1) None register)
    as (r & Hr & _ & _ & _ & _ & _ & _ & Hnext & _).
  exists r. split; [exact Hr|].
  injection Hr as <-. simpl in *.
  split; [reflexivity|]. split; [reflexivity|]. split; [reflexivity|].
  intro C. apply Hnext in C. discriminate C.
Defined.

Lemma getAllPatients_page_contents_witness :
  exists r, getAllPatients (Some 2) (Some 1) None register = (Ok r, register)
  /\ pp_patients r = [ana]
  /\ (forall q, In q (pp_patients r) -> In q register /\ isActive q = true).
Proof.
  destruct (getAllPatients_page_contents (Some 2) (Some 1) None register)
    as (r & Hr & _ & _ & Hin & _).
  exists r. split; [exact Hr|].
  split; [injection Hr as <-; reflexivity|].
  intros q Hq. destruct (Hin q Hq) as (H1 & _ & H3). split; assumption.
Defined.

Lemma getAllPatients_pages_partition_witness :
  NoDup (map createdAt (filter (listQuery noFilters) register))
  /\ exists r, getAllPatients (Some 1) (Some 1) None register = (Ok r, register)
     /\ pg_totalPages (pp_pagination r) = 2
     /\ StronglySorted newer
          (patientsOfPage (Some 1) (Some 1) None register
           ++ patientsOfPage (Some 2) (Some 1) None register
           ++ [])%list.
Proof.
  assert (Hnd : NoDup (map createdAt (filter (listQuery noFilters) register))).
  { simpl. constructor.
    - intros [C|[]]. discriminate C.
    - constructor; [intros []|constructor]. }
  split; [exact Hnd|].
  eexists. split; [reflexivity|]. split; [reflexivity|].
  exact (proj1 (proj2 (getAllPatients_pages_partition (Some 1) None register
                         _ Hnd eq_refl))).
Defined.

(** After Luis is deactivated the default list does not show him. *)
Lemma delete_then_list_witness :
  exists res store',
    deletePatient anyEmail later 11%N register = (Ok res, store')
    /\ patientsOfPage None None None store' = [ana]
    /\ forall q, In q (patientsOfPage None None None store') -> p_id q <> 11%N.
Proof.
  eexists. eexists. split; [reflexivity|]. split; [reflexivity|].
  apply (delete_then_list None None anyEmail later 11%N register _ _ None
           register_uniqueIds eq_refl).
  intro C. discriminate C.
Defined.

(** Ana, born 1989-12-31 in Santiago, is 34 on 2024-03-01. *)
Lemma age_counts_anniversaries_witness :
  age santiagoDate march1 (dateOfBirth ana) = 34
  /\ notAfter (anniversary 34 (santiagoDate (dateOfBirth ana)))
       (santiagoDate march1)
  /\ ~ notAfter (anniversary 35 (santiagoDate (dateOfBirth ana)))
         (santiagoDate march1).
Proof.
  split; [reflexivity|].
  exact (proj1 (age_counts_anniversaries santiagoDate march1
                  (dateOfBirth ana) 34) eq_refl).
Defined.

Lemma age_sign_witness :
  notAfter (santiagoDate (dateOfBirth ana)) (santiagoDate march1)
  /\ 0 <= age santiagoDate march1 (dateOfBirth ana).
Proof.
  assert (H : notAfter (santiagoDate (dateOfBirth ana)) (santiagoDate march1)).
  { left. vm_compute. reflexivity. }
  split; [exact H|].
  exact (proj2 (age_sign santiagoDate march1 (dateOfBirth ana)) H).
Defined.

(** ** Lexical order and time order *)

Lemma digit_code (d : nat) :
  (d < 10)%nat -> N_of_ascii (digit d) = N.of_nat (48 + d).
Proof.
  intros Hd. do 10 (destruct d as [|d]; [reflexivity|]). lia.
Qed.

Lemma digit_compare (d e : nat) :
  (d < 10)%nat -> (e < 10)%nat ->
  Ascii.compare (digit d) (digit e) = Nat.compare d e.
Proof.
  intros Hd He. unfold Ascii.compare.
  rewrite !digit_code by assumption.
  destruct (N.compare_spec (N.of_nat (48 + d)) (N.of_nat (48 + e)))
    as [E|L|G];
    destruct (Nat.compare_spec d e) as [E'|L'|G']; try reflexivity; lia.
Qed.

Lemma compare_twoDigits (a b : nat) (s t : string) :
  (a < 100)%nat -> (b < 100)%nat ->
  String.compare (twoDigits a ++ s) (twoDigits b ++ t)
  = match Nat.compare a b with
    | Eq => String.compare s t
    | c => c
    end.
Proof.
  intros Ha Hb. unfold twoDigits. cbn [append String.compare].
  pose proof (Nat.div_mod_eq a 10) as Ea.
  pose proof (Nat.div_mod_eq b 10) as Eb.
  pose proof (Nat.mod_upper_bound a 10 ltac:(lia)) as Ra.
  pose proof (Nat.mod_upper_bound b 10 ltac:(lia)) as Rb.
  assert (Qa : (a / 10 < 10)%nat) by (apply Nat.Div0.div_lt_upper_bound; lia).
  assert (Qb : (b / 10 < 10)%nat) by (apply Nat.Div0.div_lt_upper_bound; lia).
  rewrite !digit_compare by assumption.
  destruct (Nat.compare_spec (a / 10) (b / 10)) as [E|L|G];
    destruct (Nat.compare_spec (a mod 10) (b mod 10)) as [E'|L'|G'];
    destruct (Nat.compare_spec a b) as [E''|L''|G'']; try reflexivity; lia.
Qed.

Lemma compare_hhmm (h m h' m' : nat) :
  (h < 100)%nat -> (h' < 100)%nat -> (m < 60)%nat -> (m' < 60)%nat ->
  String.compare (hhmm h m) (hhmm h' m')
  = Nat.compare (h * 60 + m) (h' * 60 + m').
Proof.
  intros Hh Hh' Hm Hm'. unfold hhmm.
  rewrite compare_twoDigits by assumption.
  change (":" ++ twoDigits m) with (String ":" (twoDigits m ++ "")).
  change (":" ++ twoDigits m') with (String ":" (twoDigits m' ++ "")).
  cbn [String.compare].
  replace (Ascii.compare ":" ":") with Eq by reflexivity.
  rewrite compare_twoDigits by lia. cbn [String.compare].
  destruct (Nat.compare_spec h h') as [E|L|G];
    destruct (Nat.compare_spec m m') as [E'|L'|G'];
    destruct (Nat.compare_spec (h * 60 + m) (h' * 60 + m')) as [E''|L''|G''];
    try reflexivity; lia.
Qed.

Lemma compare_clock (t t' : nat) :
  (t < 1440)%nat -> (t' < 1440)%nat ->
  String.compare (clock t) (clock t') = Nat.compare t t'.
Proof.
  intros Ht Ht'. unfold clock.
  pose proof (Nat.div_mod_eq t 60) as Et.
  pose proof (Nat.div_mod_eq t' 60) as Et'.
  pose proof (Nat.mod_upper_bound t 60 ltac:(lia)) as Rt.
  pose proof (Nat.mod_upper_bound t' 60 ltac:(lia)) as Rt'.
  assert (Qt : (t / 60 < 100)%nat) by (apply Nat.Div0.div_lt_upper_bound; lia).
  assert (Qt' : (t' / 60 < 100)%nat) by (apply Nat.Div0.div_lt_upper_bound; lia).
  rewrite compare_hhmm by assumption. f_equal; lia.
Qed.

Lemma clock_lt (t t' : nat) :
  (t < 1440)%nat -> (t' < 1440)%nat ->
  (clock t < clock t')%js = (t <? t')%nat.
Proof.
  intros Ht Ht'. unfold StrOrd.lt, String.ltb.
  rewrite compare_clock by assumption.
  destruct (Nat.compare_spec t t') as [E|L|G];
    symmetry; [apply Nat.ltb_ge|apply Nat.ltb_lt|apply Nat.ltb_ge]; lia.
Qed.

Lemma clock_le (t t' : nat) :
  (t < 1440)%nat -> (t' < 1440)%nat ->
  (clock t <= clock t')%js = (t <=? t')%nat.
Proof.
  intros Ht Ht'. rewrite StrOrdFacts.le_nlt, clock_lt by assumption.
  destruct (Nat.ltb_spec t' t); symmetry;
    [apply Nat.leb_gt|apply Nat.leb_le]; lia.
Qed.

(** X8.  On zero-padded HH:MM texts the lexical order of the detector is the
    order of the times of day. *)
Theorem clock_order_is_time_order (t t' : nat) :
  (t < 1440)%nat -> (t' < 1440)%nat ->
  (clock t < clock t')%js = (t <? t')%nat
  /\ (clock t <= clock t')%js = (t <=? t')%nat
  /\ (clock t = clock t' <-> t = t').
Proof.
  intros Ht Ht'. split; [now apply clock_lt|]. split; [now apply clock_le|].
  split; [|now intros ->]. intros E.
  pose proof (compare_clock t t' Ht Ht') as C.
  rewrite E, StrOrdFacts.compare_refl in C. symmetry in C.
  now apply Nat.compare_eq_iff in C.
Qed.

(** X9.  On HH:MM texts of proper intervals of one day, the overlap test is
    the intersection test on minutes: the proposal starts before the
    stored interval ends and the stored one starts before the proposal
    ends. *)
Theorem overlapTest_on_clock (ns ne es ee : nat) :
  (ns < ne)%nat -> (ne < 1440)%nat -> (es < ee)%nat -> (ee < 1440)%nat ->
  overlapTest (clock ns) (clock ne) (clock es) (clock ee)
  = (ns <? ee)%nat && (es <? ne)%nat.
Proof.
  intros Hn Hne He Hee. unfold overlapTest, StrOrd.ge, StrOrd.gt.
  fold (StrOrd.le (clock es) (clock ns)). fold (StrOrd.lt (clock es) (clock ne)).
  fold (StrOrd.le (clock ee) (clock ne)).
  rewrite !clock_lt, !clock_le by lia.
  destruct (Nat.leb_spec es ns), (Nat.ltb_spec ns ee), (Nat.ltb_spec es ne),
    (Nat.leb_spec ne ee), (Nat.leb_spec ns es), (Nat.leb_spec ee ne);
    simpl; try reflexivity; lia.
Qed.

Lemma clock_order_is_time_order_witness :
  (570 < 1440)%nat /\ (600 < 1440)%nat
  /\ clock 570 = "09:30" /\ clock 600 = "10:00"
  /\ ("09:30" < "10:00")%js = true.
Proof.
  split; [lia|]. split; [lia|]. split; [reflexivity|]. split; [reflexivity|].
  exact (proj1 (clock_order_is_time_order 570 600 ltac:(lia) ltac:(lia))).
Defined.

Lemma overlapTest_on_clock_witness :
  (570 < 630)%nat /\ (630 < 1440)%nat /\ (540 < 600)%nat /\ (600 < 1440)%nat
  /\ overlapTest "09:30" "10:30" "09:00" "10:00" = true.
Proof.
  split; [lia|]. split; [lia|]. split; [lia|]. split; [lia|].
  exact (overlapTest_on_clock 570 630 540 600 ltac:(lia) ltac:(lia)
           ltac:(lia) ltac:(lia)).
Defined.
